(** * Book ingestion into a two-collection vector store

    A shallow embedding of [import_books_enhanced.py] (class [BookImporter])
    and of the functions of [import_cleaned_books_1000.py] that build and
    write points (the identifier derivation, get_embedding,
    upsert_to_qdrant, process_books_batch), followed by the properties of
    the ingestion pipeline.

    Conventions.
    - A Python [str] is represented by the bytes of its UTF-8 encoding, held
      in a Rocq [string]; [s.encode()] therefore reads the bytes off.
    - Python integers that count things are [nat]; HTTP status codes and the
      batch size argument are [Z].
    - The records of the input file are well-formed: JSON objects whose
      fields, where present, have the types the importer expects, strings
      and a list of strings for the tags ([book]).  What the importer does
      with any other JSON value is outside this model, and every statement
      about records is a statement about well-formed ones.
    - The two services (Ollama, Qdrant) are the environment: an [Env] says,
      for the n-th request of an execution, whether it is served, refused or
      lost, and which vector the model answers.  The contents of the vector
      store are part of the [world]. *)

From Stdlib Require Import ZArith QArith Ascii String DecimalString.
From stdpp Require Import base option list strings gmap sets.

Open Scope Z_scope.

(** ** hashlib.md5 (RFC 1321) over a list of bytes *)

Module MD5.

Definition wrap32 (x : Z) : Z := x mod 2 ^ 32.
Definition add32 (a b : Z) : Z := wrap32 (a + b).
Definition not32 (x : Z) : Z := Z.lxor x 0xFFFFFFFF.
Definition rotl32 (x c : Z) : Z :=
  wrap32 (Z.lor (Z.shiftl x c) (Z.shiftr x (32 - c))).

Definition shifts : list Z :=
  [7; 12; 17; 22; 7; 12; 17; 22; 7; 12; 17; 22; 7; 12; 17; 22;
   5;  9; 14; 20; 5;  9; 14; 20; 5;  9; 14; 20; 5;  9; 14; 20;
   4; 11; 16; 23; 4; 11; 16; 23; 4; 11; 16; 23; 4; 11; 16; 23;
   6; 10; 15; 21; 6; 10; 15; 21; 6; 10; 15; 21; 6; 10; 15; 21].

Definition sines : list Z :=
  [0xd76aa478; 0xe8c7b756; 0x242070db; 0xc1bdceee;
   0xf57c0faf; 0x4787c62a; 0xa8304613; 0xfd469501;
   0x698098d8; 0x8b44f7af; 0xffff5bb1; 0x895cd7be;
   0x6b901122; 0xfd987193; 0xa679438e; 0x49b40821;
   0xf61e2562; 0xc040b340; 0x265e5a51; 0xe9b6c7aa;
   0xd62f105d; 0x02441453; 0xd8a1e681; 0xe7d3fbc8;
   0x21e1cde6; 0xc33707d6; 0xf4d50d87; 0x455a14ed;
   0xa9e3e905; 0xfcefa3f8; 0x676f02d9; 0x8d2a4c8a;
   0xfffa3942; 0x8771f681; 0x6d9d6122; 0xfde5380c;
   0xa4beea44; 0x4bdecfa9; 0xf6bb4b60; 0xbebfbc70;
   0x289b7ec6; 0xeaa127fa; 0xd4ef3085; 0x04881d05;
   0xd9d4d039; 0xe6db99e5; 0x1fa27cf8; 0xc4ac5665;
   0xf4292244; 0x432aff97; 0xab9423a7; 0xfc93a039;
   0x655b59c3; 0x8f0ccc92; 0xffeff47d; 0x85845dd1;
   0x6fa87e4f; 0xfe2ce6e0; 0xa3014314; 0x4e0811a1;
   0xf7537e82; 0xbd3af235; 0x2ad7d2bb; 0xeb86d391].

(** The four chaining words A, B, C, D. *)
Record digest_state := Words { wA : Z; wB : Z; wC : Z; wD : Z }.

Definition initial : digest_state :=
  Words 0x67452301 0xefcdab89 0x98badcfe 0x10325476.

Definition mix (i : nat) (b c d : Z) : Z :=
  if (i <? 16)%nat then Z.lor (Z.land b c) (Z.land (not32 b) d)
  else if (i <? 32)%nat then Z.lor (Z.land d b) (Z.land (not32 d) c)
  else if (i <? 48)%nat then Z.lxor b (Z.lxor c d)
  else Z.lxor c (Z.lor b (not32 d)).

Definition word_index (i : nat) : nat :=
  if (i <? 16)%nat then i
  else if (i <? 32)%nat then (5 * i + 1) mod 16
  else if (i <? 48)%nat then (3 * i + 5) mod 16
  else (7 * i) mod 16.

Definition round (block : list Z) (s : digest_state) (i : nat) : digest_state :=
  let f := add32 (add32 (add32 (mix i (wB s) (wC s) (wD s)) (wA s))
                        (nth i sines 0))
                 (nth (word_index i) block 0) in
  Words (wD s) (add32 (wB s) (rotl32 f (nth i shifts 0))) (wB s) (wC s).

(** Little-endian 32-bit words of a 64-byte block. *)
Fixpoint le_words (bytes : list Z) : list Z :=
  match bytes with
  | b0 :: b1 :: b2 :: b3 :: rest =>
      (b0 + 256 * b1 + 65536 * b2 + 16777216 * b3) :: le_words rest
  | _ => []
  end.

Definition compress (s : digest_state) (block : list Z) : digest_state :=
  let t := fold_left (round (le_words block)) (seq 0 64) s in
  Words (add32 (wA s) (wA t)) (add32 (wB s) (wB t))
        (add32 (wC s) (wC t)) (add32 (wD s) (wD t)).

Definition le_bytes (n : nat) (x : Z) : list Z :=
  map (fun k => Z.shiftr x (8 * Z.of_nat k) mod 256) (seq 0 n).

(** Message, one 0x80 byte, zeros up to 56 mod 64, bit length on 8 bytes. *)
Definition pad (msg : list Z) : list Z :=
  let n := length msg in
  let zeros := ((55 + 64 - n mod 64) mod 64)%nat in
  msg ++ 0x80 :: repeat 0 zeros ++ le_bytes 8 (8 * Z.of_nat n mod 2 ^ 64).

Fixpoint blocks (fuel : nat) (bytes : list Z) (s : digest_state) : digest_state :=
  match fuel, bytes with
  | S fuel', _ :: _ => blocks fuel' (drop 64 bytes) (compress s (take 64 bytes))
  | _, _ => s
  end.

Definition digest (msg : list Z) : list Z :=
  let padded := pad msg in
  let s := blocks (length padded) padded initial in
  le_bytes 4 (wA s) ++ le_bytes 4 (wB s) ++ le_bytes 4 (wC s) ++ le_bytes 4 (wD s).

Definition hex_digit (n : Z) : ascii :=
  match String.get (Z.to_nat n) "0123456789abcdef" with
  | Some c => c
  | None => "0"%char
  end.

Fixpoint hex (bytes : list Z) : string :=
  match bytes with
  | [] => EmptyString
  | b :: rest => String (hex_digit (b / 16)) (String (hex_digit (b mod 16)) (hex rest))
  end.

(** [book_id.encode()]: the bytes of the UTF-8 text. *)
Definition encode (s : string) : list Z :=
  map (fun c => Z.of_N (Ascii.N_of_ascii c)) (list_ascii_of_string s).

(** [hashlib.md5(b).hexdigest()] *)
Definition hexdigest (bytes : list Z) : string := hex (digest bytes).

End MD5.

(** Python slice [s[a:b]] of a string, for [0 <= a <= b]. *)
Definition str_slice (a b : nat) (s : string) : string :=
  String.substring a (b - a) s.

(** The f-string of both scripts: 8-4-4-4-12 groups of the hex digest. *)
Definition uuid_format (hash_hex : string) : string :=
  str_slice 0 8 hash_hex +:+ "-" +:+ str_slice 8 12 hash_hex +:+ "-" +:+
  str_slice 12 16 hash_hex +:+ "-" +:+ str_slice 16 20 hash_hex +:+ "-" +:+
  str_slice 20 32 hash_hex.

(** [import_cleaned_books_1000.py], module-level function. *)
Module Cleaned1000.

Definition book_id_to_uuid (book_id : string) : string :=
  let hash_hex := MD5.hexdigest (MD5.encode book_id) in
  uuid_format hash_hex.

End Cleaned1000.

(** [import_books_enhanced.py], method of [BookImporter]; it does not touch
    [self]. *)
Definition book_id_to_uuid (book_id : string) : string :=
  let hash_hex := MD5.hexdigest (MD5.encode book_id) in
  uuid_format hash_hex.

(** ** Data model *)

Definition vector := list Q.

(** The JSON values that occur in payloads. *)
Inductive jvalue :=
| JStr (s : string)
| JStrs (l : list string).

(** A point as sent to the store: [{"id": .., "vector": .., "payload": {..}}].
    The payload keeps the keys in the order of the dict literal. *)
Record point := Point {
  point_id : string;
  point_vector : vector;
  point_payload : list (string * jvalue) }.

(** A record of the input file.  A key that is absent from the JSON object
    is [None]; [book.get(key, d)] is [default d]. *)
Record book := Book {
  book_id : option string;
  title : option string;
  author : option string;
  description : option string;
  tags : option (list string);
  language : option string;
  cover_url : option string }.

(** [self.stats] *)
Record Stats := MkStats {
  total_books : nat;
  processed_books : nat;
  successful_uploads : nat;
  failed_uploads : nat;
  embedding_calls : nat;
  start_time : option N }.

Definition QDRANT_URL : string := "http://localhost:6333".
Definition OLLAMA_URL : string := "http://localhost:11434".
Definition EMBEDDING_MODEL : string := "quentinz/bge-large-zh-v1.5:latest".
Definition DEFAULT_BATCH_SIZE : Z := 10.
Definition MAX_RETRIES : nat := 3.
Definition VECTOR_SIZE : N := 1024.
Definition DISTANCE_METRIC : string := "Cosine".

(** ** The two services *)

Inductive request :=
| GetCollections                                   (* GET  qdrant /collections *)
| GetTags                                          (* GET  ollama /api/tags *)
| GetCollection (c : string)                       (* GET  qdrant /collections/c *)
| PutCollection (c : string) (size : N) (distance : string)
| PostScroll (c : string) (limit : N)              (* POST /collections/c/points/scroll *)
| PostDelete (c : string) (ids : list string)      (* POST /collections/c/points/delete *)
| PutPoints (c : string) (points : list point)     (* PUT  /collections/c/points *)
| PostEmbeddings (model prompt : string).          (* POST ollama /api/embeddings *)

(** The JSON object of a reply, by the keys the importer reads. *)
Inductive body :=
| Status (s : string)                 (* {"status": s} *)
| Models (names : list string)        (* {"models": [{"name": n}, ..]} *)
| Points (ids : list string)          (* {"result": {"points": [{"id": i}, ..]}} *)
| Info (points_count : nat)           (* {"result": {"points_count": n}} *)
| Embedding (v : vector).             (* {"embedding": v} *)

Record response := Response { status_code : Z; json : body }.

(** What becomes of one request.  A refusal carries any status code; with
    code 200 it stands for a reply that has the right status and not the
    expected body. *)
Inductive fate :=
| Served                 (* processed, reply delivered *)
| Refused (code : Z)     (* not processed, reply [code] with an error body *)
| Lost                   (* not processed, [requests] raises (timeout, no route) *)
| Unacknowledged.        (* processed, reply never arrives, [requests] raises *)

Inductive file_state :=
| Missing
| Corrupt
| Books (bs : list book).

Record Env := MkEnv {
  fate_at : nat -> fate;
  vector_at : nat -> string -> vector;
  models : list string;
  files : string -> file_state }.

(** Console lines.  The model keeps the lines that report a failure, the
    progress and the statistics; banners and the lines that announce a step
    or a success are left out. *)
Inductive message :=
| BatchEmpty
| TagsUploadFailed
| DescUploadFailed
| BatchException
| Progress (processed total calls : nat)
| FinalReport (total processed successful failed calls : nat)
| SuccessRate (successful processed : nat)
| Verified (c : string) (points_count vectors_count : nat)
| VerifyFailed (c : string) (code : Z)
| VerifyException.

Inductive event :=
| Sent (r : request)
| Slept (ms : N)
| Printed (m : message).

Inductive exn :=
| RequestException
| KeyError (k : string)
| ValueError.

Record world := World {
  stats : Stats;                                (* of the running importer *)
  qdrant : gmap string (gmap string point);     (* collection name -> id -> point *)
  tick : nat;                                   (* requests sent so far *)
  wall : N;                                     (* milliseconds slept so far *)
  trace : list event }.                         (* oldest first *)

Definition with_stats (f : Stats -> Stats) (w : world) : world :=
  World (f (stats w)) (qdrant w) (tick w) (wall w) (trace w).
Definition with_qdrant (q : gmap string (gmap string point)) (w : world) : world :=
  World (stats w) q (tick w) (wall w) (trace w).
Definition emit (e : event) (w : world) : world :=
  World (stats w) (qdrant w) (tick w) (wall w) (trace w ++ [e]).
Definition next_tick (w : world) : world :=
  World (stats w) (qdrant w) (S (tick w)) (wall w) (trace w).
Definition advance (ms : N) (w : world) : world :=
  World (stats w) (qdrant w) (tick w) (wall w + ms)%N (trace w).

(** Upsert: write or overwrite by identifier, in the order of the list. *)
Definition store_points (pts : list point) (m : gmap string point) : gmap string point :=
  foldl (fun acc p => <[point_id p := p]> acc) m pts.

Definition delete_points (ids : list string) (m : gmap string point) : gmap string point :=
  foldl (fun acc i => delete i acc) m ids.

Definition not_found : response := Response 404 (Status "error").
Definition ok : response := Response 200 (Status "ok").

(** The reply of a service that processes request [r] at tick [n], and the
    store afterwards.  The services are not code of the repository; this is
    their interface as the importer uses it: a collection is created empty,
    a scroll returns one page of at most [limit] identifiers, a delete
    removes the listed identifiers, an upsert writes or overwrites by
    identifier, a collection that does not exist answers 404, and creating
    one that exists answers 409. *)
Definition answer (E : Env) (n : nat) (r : request) (q : gmap string (gmap string point))
  : response * gmap string (gmap string point) :=
  match r with
  | GetCollections => (ok, q)
  | GetTags => (Response 200 (Models (models E)), q)
  | GetCollection c =>
      match q !! c with
      | Some m => (Response 200 (Info (size m)), q)
      | None => (not_found, q)
      end
  | PutCollection c _ _ =>
      match q !! c with
      | Some _ => (Response 409 (Status "error"), q)
      | None => (ok, <[c := ∅]> q)
      end
  | PostScroll c limit =>
      match q !! c with
      | Some m => (Response 200 (Points (take (N.to_nat limit) (map_to_list m).*1)), q)
      | None => (not_found, q)
      end
  | PostDelete c ids =>
      match q !! c with
      | Some m => (ok, <[c := delete_points ids m]> q)
      | None => (not_found, q)
      end
  | PutPoints c pts =>
      match q !! c with
      | Some m => (ok, <[c := store_points pts m]> q)
      | None => (not_found, q)
      end
  | PostEmbeddings _ prompt => (Response 200 (Embedding (vector_at E n prompt)), q)
  end.

(** ** Computations: state and exceptions *)

Inductive outcome (A : Type) :=
| Val (a : A)
| Exc (e : exn).
Arguments Val {A} a.
Arguments Exc {A} e.

Definition M (A : Type) : Type := world -> outcome A * world.

Definition ret {A} (a : A) : M A := fun w => (Val a, w).
Definition raise {A} (e : exn) : M A := fun w => (Exc e, w).
Definition bind {A B} (m : M A) (k : A -> M B) : M B :=
  fun w => match m w with
           | (Val a, w') => k a w'
           | (Exc e, w') => (Exc e, w')
           end.
(** [try: m  except Exception as e: h e] *)
Definition try_except {A} (m : M A) (h : exn -> M A) : M A :=
  fun w => match m w with
           | (Val a, w') => (Val a, w')
           | (Exc e, w') => h e w'
           end.

#[global] Instance M_ret : MRet M := @ret.
#[global] Instance M_bind : MBind M := fun A B k m => bind m k.

Definition when (b : bool) (m : M unit) : M unit := if b then m else ret tt.

Definition get_stats : M Stats := fun w => (Val (stats w), w).
Definition modify_stats (f : Stats -> Stats) : M unit := fun w => (Val tt, with_stats f w).
Definition print (m : message) : M unit := fun w => (Val tt, emit (Printed m) w).
(** [time.sleep] *)
Definition sleep (ms : N) : M unit := fun w => (Val tt, advance ms (emit (Slept ms) w)).
(** [time.time()] *)
Definition time_now : M N := fun w => (Val (wall w), w).

(** [self.session.get / post / put] *)
Definition http (E : Env) (r : request) : M response :=
  fun w =>
    let w1 := next_tick (emit (Sent r) w) in
    match fate_at E (tick w) with
    | Served =>
        let '(resp, q) := answer E (tick w) r (qdrant w) in (Val resp, with_qdrant q w1)
    | Refused code => (Val (Response code (Status "error")), w1)
    | Lost => (Exc RequestException, w1)
    | Unacknowledged =>
        let '(_, q) := answer E (tick w) r (qdrant w) in
        (Exc RequestException, with_qdrant q w1)
    end.

(** [response.json().get("status")] *)
Definition json_get_status (r : response) : option string :=
  match json r with Status s => Some s | _ => None end.
(** [response.json().get("models", [])], then the names *)
Definition json_model_names (r : response) : list string :=
  match json r with Models names => names | _ => [] end.
(** [response.json()["result"]["points"]], then the ids *)
Definition json_point_ids (r : response) : M (list string) :=
  match json r with Points ids => ret ids | _ => raise (KeyError "result") end.
(** [response.json()["result"]["points_count"]] *)
Definition json_points_count (r : response) : M nat :=
  match json r with Info n => ret n | _ => raise (KeyError "result") end.
(** [response.json()["embedding"]] *)
Definition json_embedding (r : response) : M vector :=
  match json r with Embedding v => ret v | _ => raise (KeyError "embedding") end.

(** ** class BookImporter *)

(** [sep.join(l)] *)
Fixpoint join (sep : string) (l : list string) : string :=
  match l with
  | [] => ""
  | [s] => s
  | s :: rest => s +:+ sep +:+ join sep rest
  end.

(** [str(n)] for a non-negative integer *)
Definition str_of_nat (n : nat) : string := NilZero.string_of_uint (Nat.to_uint n).

(** The text embedded for the tag vector (process_book, line 249). *)
Definition tags_text (tags : list string) (title : string) : string :=
  match tags with
  | [] => "書名：" +:+ title
  | _ :: _ => "分類：" +:+ join ", " tags
  end.

(** [range(0, n, step)] for the batch loop. *)
Definition batch_starts (n : nat) (step : Z) : M (list nat) :=
  if step =? 0 then raise ValueError
  else if step <? 0 then ret []
  else
    let s := Z.to_nat step in
    ret (map (fun k => k * s)%nat (seq 0 ((n + s - 1) / s)%nat)).

Section BookImporter.

Variable E : Env.

Definition initial_stats : Stats := MkStats 0 0 0 0 0 None.

Definition check_services : M bool :=
  try_except
    (qdrant_resp ← http E GetCollections;
     if negb (status_code qdrant_resp =? 200) then mret false else
     ollama_resp ← http E GetTags;
     if negb (status_code ollama_resp =? 200) then mret false else
     let model_names := json_model_names ollama_resp in
     if negb (bool_decide (EMBEDDING_MODEL ∈ model_names)) then mret false
     else mret true)
    (fun _ => mret false).

Definition check_collection_exists (collection_name : string) : M bool :=
  try_except
    (response ← http E (GetCollection collection_name);
     mret (status_code response =? 200))
    (fun _ => mret false).

Definition create_collection (collection_name : string) : M bool :=
  try_except
    (response ← http E (PutCollection collection_name VECTOR_SIZE DISTANCE_METRIC);
     if (status_code response =? 200)
        && bool_decide (json_get_status response = Some "ok"%string)
     then mret true
     else mret false)
    (fun _ => mret false).

Definition clear_collection (collection_name : string) : M bool :=
  try_except
    (response ← http E (PostScroll collection_name 10000);
     if negb (status_code response =? 200) then mret false else
     point_ids ← json_point_ids response;
     match point_ids with
     | [] => mret true
     | _ :: _ =>
         delete_response ← http E (PostDelete collection_name point_ids);
         if (status_code delete_response =? 200)
            && bool_decide (json_get_status delete_response = Some "ok"%string)
         then mret true
         else mret false
     end)
    (fun _ => mret false).

Fixpoint setup_each (clear_existing : bool) (collections : list string) : M bool :=
  match collections with
  | [] => mret true
  | collection :: rest =>
      exists_ ← check_collection_exists collection;
      done_ ← (if exists_ : bool then
                 if clear_existing then clear_collection collection else mret true
               else create_collection collection);
      if negb done_ then mret false else setup_each clear_existing rest
  end.

Definition setup_collections (clear_existing : bool) : M bool :=
  setup_each clear_existing ["tags_vecs"; "desc_vecs"]%string.

(** One iteration of [for attempt in range(MAX_RETRIES)]: [Some v] when the
    iteration returns [v], [None] when it falls through to the next one. *)
Definition embedding_attempt (text : string) (attempt : nat) : M (option vector) :=
  try_except
    (response ← http E (PostEmbeddings EMBEDDING_MODEL text);
     if status_code response =? 200 then
       v ← json_embedding response; mret (Some v)
     else
       when (attempt <? MAX_RETRIES - 1)%nat (sleep 1000);; mret None)
    (fun _ => when (attempt <? MAX_RETRIES - 1)%nat (sleep 1000);; mret None).

Fixpoint embedding_attempts (text : string) (attempts : list nat) : M (option vector) :=
  match attempts with
  | [] => mret None
  | attempt :: rest =>
      r ← embedding_attempt text attempt;
      match r with
      | Some v => mret (Some v)
      | None => embedding_attempts text rest
      end
  end.

Definition count_embedding_call (s : Stats) : Stats :=
  MkStats (total_books s) (processed_books s) (successful_uploads s)
          (failed_uploads s) (embedding_calls s + 1) (start_time s).

Definition get_embedding (text : string) : M (option vector) :=
  modify_stats count_embedding_call;;
  embedding_attempts text (seq 0 MAX_RETRIES).

Definition upsert_to_qdrant (collection : string) (points : list point) : M bool :=
  match points with
  | [] => mret true
  | _ :: _ =>
      try_except
        (response ← http E (PutPoints collection points);
         if (status_code response =? 200)
            && bool_decide (json_get_status response = Some "ok"%string)
         then mret true
         else mret false)
        (fun _ => mret false)
  end.

Definition process_book (b : book) (book_index : nat) : M (option point * option point) :=
  try_except
    (let book_id := default ("bk_" +:+ str_of_nat book_index) (book_id b) in
     let title := default "" (title b) in
     let author := default "" (author b) in
     let description := default "" (description b) in
     let tags := default [] (tags b) in
     let language := default "中文" (language b) in
     let cover_url := default "" (cover_url b) in
     tags_vector ← get_embedding (tags_text tags title);
     match tags_vector with
     | None => mret (None, None)
     | Some tags_vector =>
         desc_vector ← get_embedding description;
         match desc_vector with
         | None => mret (None, None)
         | Some desc_vector =>
             let full_payload :=
               [("book_id", JStr book_id); ("title", JStr title);
                ("author", JStr author); ("description", JStr description);
                ("tags", JStrs tags); ("language", JStr language);
                ("cover_url", JStr cover_url); ("type", JStr "book")]%string in
             let point_uuid := book_id_to_uuid book_id in
             let tags_point := Point point_uuid tags_vector full_payload in
             let desc_point :=
               Point point_uuid desc_vector
                     [("book_id", JStr book_id); ("type", JStr "book_desc")]%string in
             mret (Some tags_point, Some desc_point)
         end
     end)
    (fun _ => mret (None, None)).

Definition count_failed_upload (s : Stats) : Stats :=
  MkStats (total_books s) (processed_books s) (successful_uploads s)
          (failed_uploads s + 1) (embedding_calls s) (start_time s).

(** The [for i, book in enumerate(books)] loop of process_batch, with its
    three accumulators. *)
Fixpoint process_each (books : list book) (index : nat)
    (tags_points desc_points : list point) (successful_count : nat)
  : M (list point * list point * nat) :=
  match books with
  | [] => mret (tags_points, desc_points, successful_count)
  | b :: rest =>
      r ← process_book b index;
      match r with
      | (Some tags_point, Some desc_point) =>
          process_each rest (S index) (tags_points ++ [tags_point])
                       (desc_points ++ [desc_point]) (successful_count + 1)
      | _ =>
          modify_stats count_failed_upload;;
          process_each rest (S index) tags_points desc_points successful_count
      end
  end.

Definition process_batch (books : list book) (start_idx : nat)
  : M (list point * list point * nat) :=
  process_each books start_idx [] [] 0.

Definition print_progress (processed total : nat) : M unit :=
  s ← get_stats;
  match start_time s with
  | None => mret tt
  | Some _ => print (Progress processed total (embedding_calls s))
  end.

Definition print_final_report : M unit :=
  s ← get_stats;
  match start_time s with
  | None => mret tt
  | Some _ =>
      print (FinalReport (total_books s) (processed_books s) (successful_uploads s)
                         (failed_uploads s) (embedding_calls s));;
      when (0 <? processed_books s)%nat
           (print (SuccessRate (successful_uploads s) (processed_books s)))
  end.

Fixpoint verify_each (collections : list string) : M unit :=
  match collections with
  | [] => mret tt
  | collection :: rest =>
      response ← http E (GetCollection collection);
      (if status_code response =? 200 then
         points_count ← json_points_count response;
         print (Verified collection points_count points_count)
       else print (VerifyFailed collection (status_code response)));;
      verify_each rest
  end.

Definition verify_collections : M unit :=
  try_except (verify_each ["tags_vecs"; "desc_vecs"]%string)
             (fun _ => print VerifyException).

Definition count_batch (n successful_count : nat) (s : Stats) : Stats :=
  MkStats (total_books s) (processed_books s + n)
          (successful_uploads s + successful_count)
          (failed_uploads s) (embedding_calls s) (start_time s).

Definition start_run (n : nat) (t : N) (s : Stats) : Stats :=
  MkStats n (processed_books s) (successful_uploads s)
          (failed_uploads s) (embedding_calls s) (Some t).

(** The body of the batch loop of import_books for start index [i].  The
    [try] block yields [false] where the source says [continue] and [true]
    where it runs to its end; the pause between batches follows only then. *)
Definition import_batch (books : list book) (batch_size : nat) (i : nat) : M unit :=
  let batch := take batch_size (drop i books) in
  completed ← try_except
    ('(tags_points, desc_points, successful_count) ← process_batch batch i;
     if bool_decide (tags_points = []) || bool_decide (desc_points = []) then
       print BatchEmpty;; mret false
     else
       tags_ok ← upsert_to_qdrant "tags_vecs" tags_points;
       if negb tags_ok then print TagsUploadFailed;; mret false else
       desc_ok ← upsert_to_qdrant "desc_vecs" desc_points;
       if negb desc_ok then print DescUploadFailed;; mret false else
       modify_stats (count_batch (length batch) successful_count);;
       print_progress (i + length batch) (length books);;
       mret true)
    (fun _ => print BatchException;; mret false);
  when completed (sleep 500).

Fixpoint import_batches (books : list book) (batch_size : nat) (starts : list nat) : M unit :=
  match starts with
  | [] => mret tt
  | i :: rest => import_batch books batch_size i;; import_batches books batch_size rest
  end.

(** Step 3 of import_books: [Path(json_file).exists()], [json.load]. *)
Definition load_books (json_file : string) : option (list book) :=
  match files E json_file with
  | Books bs => Some bs
  | Missing | Corrupt => None
  end.

Definition import_books (json_file : string) (batch_size : Z) (clear_existing : bool) : M bool :=
  services ← check_services;
  if negb services then mret false else
  collections ← setup_collections clear_existing;
  if negb collections then mret false else
  match load_books json_file with
  | None => mret false
  | Some books =>
      t ← time_now;
      modify_stats (start_run (length books) t);;
      starts ← batch_starts (length books) batch_size;
      import_batches books (Z.to_nat batch_size) starts;;
      print_final_report;;
      verify_collections;;
      mret true
  end.

End BookImporter.

(** A fresh [BookImporter(...)] object in a process that finds the store as
    [w] left it. *)
Definition new_importer (w : world) : world := with_stats (fun _ => initial_stats) w.

(** ** import_cleaned_books_1000.py *)

(** The module-level functions of the second import script.  They keep no
    statistics. *)
Module ImportCleaned1000.

Definition EMBEDDING_MODEL : string := "quentinz/bge-large-zh-v1.5".
Definition BATCH_SIZE : Z := 10.
Definition MAX_RETRIES : nat := 3.

Section Script.

Variable E : Env.

(** The object of [raise Exception("無法獲取embedding")] (line 56). *)
Variable gave_up : exn.

(** One iteration of [for attempt in range(max_retries)], with the local
    [max_retries = 3]. *)
Definition embedding_attempt (text : string) (attempt : nat) : M (option vector) :=
  let max_retries := 3%nat in
  try_except
    (response ← http E (PostEmbeddings EMBEDDING_MODEL text);
     if status_code response =? 200 then
       v ← json_embedding response; mret (Some v)
     else
       when (attempt <? max_retries - 1)%nat (sleep 1000);; mret None)
    (fun _ => when (attempt <? max_retries - 1)%nat (sleep 1000);; mret None).

Fixpoint embedding_attempts (text : string) (attempts : list nat) : M (option vector) :=
  match attempts with
  | [] => mret None
  | attempt :: rest =>
      r ← embedding_attempt text attempt;
      match r with
      | Some v => mret (Some v)
      | None => embedding_attempts text rest
      end
  end.

Definition get_embedding (text : string) : M vector :=
  let max_retries := 3%nat in
  r ← embedding_attempts text (seq 0 max_retries);
  match r with
  | Some v => mret v
  | None => raise gave_up
  end.

Definition upsert_to_qdrant (collection : string) (points : list point) : M bool :=
  try_except
    (response ← http E (PutPoints collection points);
     if status_code response =? 200
     then mret (bool_decide (json_get_status response = Some "ok"%string))
     else mret false)
    (fun _ => mret false).

(** The [try] block of the loop of process_books_batch, up to the two
    points that it appends. *)
Definition build_points (b : book) (index : nat) : M (point * point) :=
  let book_id := default ("bk_" +:+ str_of_nat index) (book_id b) in
  let title := default "" (title b) in
  let author := default "" (author b) in
  let description := default "" (description b) in
  let tags := default [] (tags b) in
  let language := default "中文" (language b) in
  let cover_url := default "" (cover_url b) in
  tags_vector ← get_embedding (tags_text tags title);
  desc_vector ← get_embedding description;
  let full_payload :=
    [("book_id", JStr book_id); ("title", JStr title);
     ("author", JStr author); ("description", JStr description);
     ("tags", JStrs tags); ("language", JStr language);
     ("cover_url", JStr cover_url); ("type", JStr "book")]%string in
  let point_uuid := Cleaned1000.book_id_to_uuid book_id in
  mret (Point point_uuid tags_vector full_payload,
        Point point_uuid desc_vector
              [("book_id", JStr book_id); ("type", JStr "book_desc")]%string).

(** The [for i, book in enumerate(books)] loop; [index] is [start_idx + i]. *)
Fixpoint process_each (books : list book) (index : nat)
    (tags_points desc_points : list point) (successful_count : nat)
  : M (list point * list point * nat) :=
  match books with
  | [] => mret (tags_points, desc_points, successful_count)
  | b :: rest =>
      r ← try_except (p ← build_points b index; mret (Some p)) (fun _ => mret None);
      match r with
      | Some (tags_point, desc_point) =>
          process_each rest (S index) (tags_points ++ [tags_point])
                       (desc_points ++ [desc_point]) (successful_count + 1)
      | None => process_each rest (S index) tags_points desc_points successful_count
      end
  end.


End Script.

End ImportCleaned1000.

(** ** Shapes used in the statements *)

Definition is_hex (c : ascii) : bool :=
  bool_decide (c ∈ list_ascii_of_string "0123456789abcdef").

(** Canonical hyphenated form: 36 characters, hyphens at 8, 13, 18 and 23,
    lower-case hexadecimal digits elsewhere (32 digits, 128 bits). *)
Definition canonical_uuid (s : string) : bool :=
  bool_decide (String.length s = 36%nat) &&
  forallb (fun i =>
             match String.get i s with
             | Some c =>
                 if bool_decide (i ∈ [8; 13; 18; 23]%nat)
                 then bool_decide (c = "-"%char) else is_hex c
             | None => false
             end) (seq 0 36).

(** The key from which a record's identifier is derived (process_book,
    line 238). *)
Definition key_of (b : book) (book_index : nat) : string :=
  default ("bk_" +:+ str_of_nat book_index) (book_id b).

(** ** Vocabulary of the statements *)

Definition embed_request (text : string) : request := PostEmbeddings EMBEDDING_MODEL text.

(** [k] failed attempts, each followed by the one-second pause. *)
Definition retries (text : string) (k : nat) : list event :=
  concat (replicate k [Sent (embed_request text); Slept 1000]).

(** The world after a request that met no store change. *)
Definition sent (r : request) (w : world) : world := next_tick (emit (Sent r) w).

Definition paused (ms : N) (w : world) : world := advance ms (emit (Slept ms) w).

Definition embed_event (e : event) : Prop :=
  match e with
  | Sent (PostEmbeddings _ _) | Slept _ => True
  | _ => False
  end.

(** [w'] differs from [w] by embedding traffic only: the store is untouched,
    the events added are embedding requests and pauses, and of the
    statistics only [embedding_calls] and [failed_uploads] may have moved. *)
Record quiet (w w' : world) : Prop := {
  quiet_qdrant : qdrant w' = qdrant w;
  quiet_total : total_books (stats w') = total_books (stats w);
  quiet_processed : processed_books (stats w') = processed_books (stats w);
  quiet_successful : successful_uploads (stats w') = successful_uploads (stats w);
  quiet_start : start_time (stats w') = start_time (stats w);
  quiet_trace : exists evs, trace w' = trace w ++ evs /\ Forall embed_event evs }.

(** The record's tag text and description, as process_book reads them. *)
Definition tag_text_of (b : book) : string :=
  tags_text (default [] (tags b)) (default "" (title b)).

Definition description_of (b : book) : string := default "" (description b).

(** One of the record's two embedding calls fails: the first one, or the
    second one after the first succeeded. *)
Definition embedding_fails (E : Env) (b : book) (w : world) : Prop :=
  match get_embedding E (tag_text_of b) w with
  | (Val (Some _), w1) => (get_embedding E (description_of b) w1).1 = Val None
  | (r, _) => r = Val None
  end.

(** The identifiers that the records of [books], read from position [idx]
    on, are given. *)
Definition derived_ids (books : list book) (idx : nat) : list string :=
  imap (fun j b => book_id_to_uuid (key_of b (idx + j))) books.

(** The points of collection [c]; a collection that does not exist holds
    none. *)
Definition collection (c : string) (w : world) : gmap string point :=
  default ∅ (qdrant w !! c).

Definition ids_in (c : string) (w : world) : gset string := dom (collection c w).

Definition point_count (c : string) (w : world) : nat := size (collection c w).

Definition ids_of (pts : list point) : gset string := list_to_set (point_id <$> pts).

Definition is_delete (e : event) : Prop :=
  match e with
  | Sent (PostDelete _ _) => True
  | _ => False
  end.

(** The world after the bookkeeping of a batch that was written to both
    collections: counters, progress line, pause. *)
Definition completed (size n processed total : nat) (w : world) : world :=
  let w1 := with_stats (count_batch size n) w in
  paused 500
    match start_time (stats w1) with
    | None => w1
    | Some _ => emit (Printed (Progress processed total (embedding_calls (stats w1)))) w1
    end.

(** Every execution of [m] takes a world to an [R]-related one. *)
Definition preserves {A} (R : relation world) (m : M A) : Prop :=
  forall w r w', m w = (r, w') -> R w w'.

(** [w'] extends [w] by events that satisfy [P] and has the same store
    contents and the same statistics. *)
Record idle (P : event -> Prop) (w w' : world) : Prop := {
  idle_stats : stats w' = stats w;
  idle_store : forall c, collection c w' = collection c w;
  idle_trace : exists evs, trace w' = trace w ++ evs /\ Forall P evs }.

(** An event that writes nothing to the store. *)
Definition harmless (e : event) : Prop :=
  match e with
  | Sent (PostDelete _ _) | Sent (PutPoints _ _) => False
  | _ => True
  end.

(** The identifiers of the whole input file, by position. *)
Definition catalog_ids (books : list book) : gset string :=
  list_to_set (derived_ids books 0).

(** [w'] has every identifier of [w], gained identifiers only from [A], and
    no delete request was sent in between. *)
Record grows (A : gset string) (w w' : world) : Prop := {
  grows_keeps : forall c, ids_in c w ⊆ ids_in c w';
  grows_within : forall c, ids_in c w' ⊆ ids_in c w ∪ A;
  grows_trace : exists evs, trace w' = trace w ++ evs /\ Forall (fun e => ~ is_delete e) evs }.

(** The statistics are untouched. *)
Definition same_stats (w w' : world) : Prop := stats w' = stats w.

(** Start indices of the chunks of [n] records by [s]. *)
Definition chunk_starts (n s : nat) : list nat :=
  map (fun k => k * s)%nat (seq 0 ((n + s - 1) / s)%nat).

(** The identifiers that one scroll request with [limit] returns. *)
Definition first_page (limit : N) (m : gmap string point) : list string :=
  take (N.to_nat limit) (map_to_list m).*1.

Definition is_printed (e : event) : bool :=
  match e with Printed _ => true | _ => false end.

(** *** Which records of a batch can be embedded

    These definitions read the answers of the embedding service off the
    environment alone; no function of the importer occurs in them. *)

Definition is_served (f : fate) : bool :=
  match f with Served => true | _ => false end.

(** The number of requests, among the [n] sent from tick [t] on, up to and
    including the first that is served; [None] when none of them is. *)
Fixpoint first_served (E : Env) (t n : nat) : option nat :=
  match n with
  | 0%nat => None
  | S n' =>
      if is_served (fate_at E t) then Some 1%nat
      else match first_served E (S t) n' with
           | Some a => Some (S a)
           | None => None
           end
  end.

(** One record whose first embedding request is sent at tick [t]: whether
    both of its texts get a vector within [MAX_RETRIES] requests each (the
    description is asked for only after the tag text got one), and the tick
    at which the next record starts. *)
Definition record_outcome (E : Env) (t : nat) : bool * nat :=
  match first_served E t MAX_RETRIES with
  | None => (false, (t + MAX_RETRIES)%nat)
  | Some a =>
      match first_served E (t + a) MAX_RETRIES with
      | None => (false, (t + a + MAX_RETRIES)%nat)
      | Some a' => (true, (t + a + a')%nat)
      end
  end.

(** For [records] consecutive records from tick [t] on: [true] for a record
    whose two texts are embedded, [false] for one with a failed embedding
    call. *)
Fixpoint embedding_outcomes (E : Env) (records t : nat) : list bool :=
  match records with
  | 0%nat => []
  | S m => (record_outcome E t).1 :: embedding_outcomes E m (record_outcome E t).2
  end.

(** The elements of [l] at the positions marked [true]. *)
Fixpoint survivors {A} (oc : list bool) (l : list A) : list A :=
  match oc, l with
  | true :: oc', x :: l' => x :: survivors oc' l'
  | false :: oc', _ :: l' => survivors oc' l'
  | _, _ => []
  end.

(** The number of positions marked [false]. *)
Definition failures (oc : list bool) : nat := length (List.filter negb oc).

(** ** Concrete inputs *)

Definition dune : book :=
  Book (Some "b1") (Some "Dune") (Some "Frank Herbert") (Some "A desert planet.")
       (Some ["sf"; "classic"]) (Some "en") None.

Definition emma : book :=
  Book None (Some "Emma") None (Some "A novel.") None None None.

Definition ulysses : book :=
  Book (Some "b3") (Some "Ulysses") None (Some "One day in Dublin.") (Some ["modern"]) None None.

(** An environment that follows a script of fates, request by request, and
    serves every request after the script; the model answers a vector that
    depends on the moment and on the length of the prompt. *)
Definition scripted (fates : list fate) (books : list book) : Env :=
  MkEnv (fun n => nth n fates Served)
        (fun n prompt => [inject_Z (Z.of_nat n); inject_Z (Z.of_nat (String.length prompt))])
        [EMBEDDING_MODEL]
        (fun _ => Books books).

(** A new importer in front of a store whose two collections exist and are
    empty. *)
Definition fresh : world :=
  World initial_stats {["tags_vecs" := ∅; "desc_vecs" := ∅]} 0 0 [].

(** The second record's tag embedding is refused three times. *)
Definition one_bad_record : Env :=
  scripted [Served; Served; Refused 500; Lost; Refused 503] [dune; emma; ulysses].

(** Everything is served. *)
Definition all_served : Env := scripted [] [dune; emma].

(** The batch's embeddings and the tag upsert are served; the description
    upsert is refused. *)
Definition desc_refused : Env :=
  scripted [Served; Served; Served; Served; Served; Refused 500] [dune; emma].

(** The first run finds the embedding service failing for the only record,
    the second run finds it working. *)
Definition flaky_then_fine : Env :=
  scripted [Served; Served; Served; Served; Refused 500; Refused 500; Refused 500] [emma].

(** Two records in batches of one; the upsert of the first batch into
    tags_vecs is answered with status 500. *)
Definition tags_refused : Env :=
  scripted [Served; Served; Served; Served; Served; Served; Refused 500] [dune; emma].

(** A collection of [n] points with the identifiers 0 .. n-1. *)
Definition crowd (n : N) : gmap string point :=
  list_to_map ((fun k => (str_of_nat k, Point (str_of_nat k) [] [])) <$> seq 0 (N.to_nat n)).

Definition crowded : world :=
  World initial_stats {["tags_vecs" := crowd 10001]} 0 0 [].

(** The first verification request is lost. *)
Definition verify_lost : Env := scripted [Lost] [dune].

(** Qdrant does not answer. *)
Definition qdrant_down : Env := scripted [Lost] [dune; emma].

(** A store with a point left over from an earlier catalogue. *)
Definition stale : world :=
  World initial_stats
        {["tags_vecs" := {["old" := Point "old" [] []]}; "desc_vecs" := ∅]} 0 0 [].

(** ** Vocabulary of the further properties *)

(** The reply to a request with this fate arrives with status 200 (for a
    request that a service answers 200 when it serves it). *)
Definition replies_200 (f : fate) : bool :=
  match f with
  | Served => true
  | Refused code => code =? 200
  | Lost | Unacknowledged => false
  end.





(** What setup does to one collection when it is served. *)
Definition set_up (clear_existing : bool) (c : string)
    (q : gmap string (gmap string point)) : gmap string (gmap string point) :=
  match q !! c with
  | Some m => if clear_existing then <[c := delete_points (first_page 10000 m) m]> q else q
  | None => <[c := ∅]> q
  end.

(** Neither an embedding request nor an upsert. *)
Definition imports_nothing (e : event) : Prop :=
  match e with
  | Sent (PostEmbeddings _ _) | Sent (PutPoints _ _) => False
  | _ => True
  end.

(** The statistics are as before and nothing was sent to import a record. *)
Record prelude (w w' : world) : Prop := {
  prelude_stats : stats w' = stats w;
  prelude_trace : exists evs, trace w' = trace w ++ evs /\ Forall imports_nothing evs }.

(** Every identifier of desc_vecs is an identifier of tags_vecs. *)
Definition paired (w : world) : Prop := ids_in "desc_vecs" w ⊆ ids_in "tags_vecs" w.

Definition keeps_paired (w w' : world) : Prop := paired w -> paired w'.

(** [payload[k]] of a point. *)
Fixpoint assoc (k : string) (l : list (string * jvalue)) : option jvalue :=
  match l with
  | [] => None
  | (k', v) :: rest => if String.eqb k k' then Some v else assoc k rest
  end.

Definition payload_get (k : string) (p : point) : option jvalue := assoc k (point_payload p).

(** The point's identifier is the one derived from the book_id that its
    payload carries. *)
Definition keyed (p : point) : Prop :=
  exists k, payload_get "book_id" p = Some (JStr k) /\ point_id p = book_id_to_uuid k.

(** A tag point and the description point of the same record. *)
Definition twins (t d : point) : Prop :=
  point_id d = point_id t /\
  payload_get "book_id" d = payload_get "book_id" t /\
  payload_get "type" t = Some (JStr "book") /\
  payload_get "type" d = Some (JStr "book_desc").

(** * Properties *)

(** ** The digest on known values *)

Example md5_empty : MD5.hexdigest (MD5.encode "") = "d41d8cd98f00b204e9800998ecf8427e"%string.
Proof. vm_compute. reflexivity. Qed.

Example md5_abc : MD5.hexdigest (MD5.encode "abc") = "900150983cd24fb0d6963f7d28e17f72"%string.
Proof. vm_compute. reflexivity. Qed.

Example md5_two_blocks :
  MD5.hexdigest (MD5.encode "aaaaaaaaaaaaaaaaaaaaaaaaaaaaaaaaaaaaaaaaaaaaaaaaaaaaaaaa")
  = "3b0c8ac703f828b04c6c197006d17218"%string.
Proof. vm_compute. reflexivity. Qed.

Example md5_a64 :
  MD5.hexdigest (MD5.encode "aaaaaaaaaaaaaaaaaaaaaaaaaaaaaaaaaaaaaaaaaaaaaaaaaaaaaaaaaaaaaaaa")
  = "014842d480b571495a4a0363793f7367"%string.
Proof. vm_compute. reflexivity. Qed.

Example md5_utf8 : MD5.hexdigest (MD5.encode "書") = "8c4f0c64d9a678876faa3f884fc4379b"%string.
Proof. vm_compute. reflexivity. Qed.

Example uuid_bk_0 : book_id_to_uuid "bk_0" = "494e66a0-4d34-76bb-d91b-68ecc0dd5d97"%string.
Proof. vm_compute. reflexivity. Qed.

Lemma hex_digit_is_hex n : 0 <= n < 16 -> is_hex (MD5.hex_digit n) = true.
Proof.
  intros Hn. unfold MD5.hex_digit.
  assert (Z.to_nat n < 16)%nat as Hm by lia.
  revert Hm. generalize (Z.to_nat n) as m. intros m Hm.
  do 16 (destruct m as [|m]; [vm_compute; reflexivity|]). lia.
Qed.

Lemma digest_shape (msg : list Z) :
  exists b : list Z, MD5.digest msg = b /\ length b = 16%nat /\ Forall (fun x => 0 <= x < 256) b.
Proof.
  eexists. split; [reflexivity|]. unfold MD5.digest.
  generalize (MD5.blocks (length (MD5.pad msg)) (MD5.pad msg) MD5.initial) as s.
  intros s. split.
  - rewrite !length_app. unfold MD5.le_bytes. rewrite !length_map, !length_seq. reflexivity.
  - rewrite !Forall_app. unfold MD5.le_bytes.
    repeat split; apply Forall_map, Forall_forall; intros k _; simpl;
      apply Z.mod_pos_bound; lia.
Qed.

Lemma uuid_format_canonical (b : list Z) :
  length b = 16%nat -> Forall (fun x => 0 <= x < 256) b ->
  canonical_uuid (uuid_format (MD5.hex b)) = true.
Proof.
  intros Hlen Hall.
  do 16 (destruct b as [|? b]; [discriminate Hlen|]).
  destruct b; [|discriminate Hlen].
  repeat match goal with
         | H : Forall _ (_ :: _) |- _ => apply Forall_cons in H as [? H]
         end.
  lazy -[is_hex MD5.hex_digit Z.div Z.modulo].
  repeat match goal with
         | |- context [is_hex (MD5.hex_digit ?n)] =>
             rewrite (hex_digit_is_hex n)
               by (split; [apply Z.div_pos || apply Z.mod_pos_bound; lia
                          | apply Z.div_lt_upper_bound || apply Z.mod_pos_bound; lia])
         end.
  reflexivity.
Qed.

(** ** The embedding client *)

Ltac unfold_M :=
  unfold mbind, M_bind, mret, M_ret, bind, ret, raise, try_except, when,
    print, sleep, modify_stats, get_stats, time_now in *.

Section EmbeddingClient.

Variable E : Env.

Lemma embedding_attempt_run text attempt w :
  embedding_attempt E text attempt w =
  match fate_at E (tick w) with
  | Served => (Val (Some (vector_at E (tick w) text)), sent (embed_request text) w)
  | _ => (Val None,
          if (attempt <? MAX_RETRIES - 1)%nat
          then paused 1000 (sent (embed_request text) w)
          else sent (embed_request text) w)
  end.
Proof.
  unfold embedding_attempt, http. unfold_M. unfold sent, paused, embed_request.
  generalize (attempt <? MAX_RETRIES - 1)%nat as pause. intros pause.
  destruct (fate_at E (tick w)) as [|code| |]; cbn.
  - reflexivity.
  - destruct (code =? 200); cbn; destruct pause; reflexivity.
  - destruct pause; reflexivity.
  - destruct pause; reflexivity.
Qed.

Lemma embedding_attempts_cons text attempt rest w :
  embedding_attempts E text (attempt :: rest) w =
  match fate_at E (tick w) with
  | Served => (Val (Some (vector_at E (tick w) text)), sent (embed_request text) w)
  | _ => embedding_attempts E text rest
           (if (attempt <? MAX_RETRIES - 1)%nat
            then paused 1000 (sent (embed_request text) w)
            else sent (embed_request text) w)
  end.
Proof.
  cbn [embedding_attempts]. unfold mbind, M_bind, bind.
  rewrite embedding_attempt_run.
  destruct (fate_at E (tick w)); reflexivity.
Qed.

(** What the retry loop leaves behind when attempts [a .. a+n] remain and
    the last of them is attempt [MAX_RETRIES - 1]: it stops after [k] failed
    attempts, [k <= n]. *)
Lemma embedding_attempts_run text n : forall a w,
  (a + S n = MAX_RETRIES)%nat ->
  exists k r w',
    embedding_attempts E text (seq a (S n)) w = (Val r, w') /\
    (k <= n)%nat /\
    (forall j, (j < k)%nat -> fate_at E (tick w + j) <> Served) /\
    stats w' = stats w /\ qdrant w' = qdrant w /\
    wall w' = (wall w + 1000 * N.of_nat k)%N /\
    tick w' = (tick w + k + 1)%nat /\
    trace w' = trace w ++ retries text k ++ [Sent (embed_request text)] /\
    (fate_at E (tick w + k) = Served /\ r = Some (vector_at E (tick w + k) text)
     \/ fate_at E (tick w + k) <> Served /\ k = n /\ r = None).
Proof.
  induction n as [|n IH]; intros a w Han.
  - cbn [seq]. rewrite embedding_attempts_cons.
    exists 0%nat. rewrite !Nat.add_0_r.
    replace (a <? MAX_RETRIES - 1)%nat with false
      by (symmetry; apply Nat.ltb_ge; lia).
    destruct (fate_at E (tick w)) eqn:Hfate.
    { exists (Some (vector_at E (tick w) text)), (sent (embed_request text) w). cbn.
      split_and!; [reflexivity | lia | intros; lia | reflexivity | reflexivity
                  | lia | lia | reflexivity | left; done]. }
    all: exists None, (sent (embed_request text) w); cbn;
         (split_and!; [reflexivity | lia | intros; lia | reflexivity | reflexivity
                      | lia | lia | reflexivity | right; done]).
  - cbn [seq]. rewrite embedding_attempts_cons.
    destruct (fate_at E (tick w)) eqn:Hfate.
    { exists 0%nat, (Some (vector_at E (tick w) text)), (sent (embed_request text) w).
      rewrite !Nat.add_0_r. cbn.
      split_and!; [reflexivity | lia | intros; lia | reflexivity | reflexivity
                  | lia | lia | reflexivity | left; done]. }
    all: replace (a <? MAX_RETRIES - 1)%nat with true
           by (symmetry; apply Nat.ltb_lt; lia);
         destruct (IH (S a) (paused 1000 (sent (embed_request text) w)) ltac:(lia))
           as (k & r & w' & Hrun & Hk & Hbefore & Hstats & Hq & Hwall & Htick & Htrace & Hres);
         exists (S k), r, w'; cbn in Hstats, Hq, Hwall, Htick, Htrace, Hres, Hbefore;
         replace (tick w + S k)%nat with (S (tick w + k)) by lia;
         (split; [exact Hrun|]);
         (split; [lia|]);
         (split; [ intros j Hj; destruct j as [|j];
                   [ rewrite Nat.add_0_r; congruence
                   | replace (tick w + S j)%nat with (S (tick w + j)) by lia;
                     apply Hbefore; lia ] |]);
         (split; [exact Hstats|]); (split; [exact Hq|]);
         (split; [lia|]); (split; [lia|]);
         (split; [ rewrite Htrace; unfold retries; cbn [replicate concat];
                   rewrite <- !app_assoc; reflexivity |]);
         (destruct Hres as [?|(?&?&?)]; [left; done | right; repeat split; try done; lia]).
Qed.

End EmbeddingClient.

Lemma get_embedding_run (E : Env) text w :
  exists k r w',
    get_embedding E text w = (Val r, w') /\
    (k < MAX_RETRIES)%nat /\
    (forall j, (j < k)%nat -> fate_at E (tick w + j) <> Served) /\
    stats w' = count_embedding_call (stats w) /\
    qdrant w' = qdrant w /\
    wall w' = (wall w + 1000 * N.of_nat k)%N /\
    tick w' = (tick w + k + 1)%nat /\
    trace w' = trace w ++ retries text k ++ [Sent (embed_request text)] /\
    (fate_at E (tick w + k) = Served /\ r = Some (vector_at E (tick w + k) text)
     \/ fate_at E (tick w + k) <> Served /\ S k = MAX_RETRIES /\ r = None).
Proof.
  unfold get_embedding. unfold mbind, M_bind, bind. unfold modify_stats.
  destruct (embedding_attempts_run E text (MAX_RETRIES - 1) 0
              (with_stats count_embedding_call w) eq_refl)
    as (k & r & w' & Hrun & Hk & Hbefore & Hstats & Hq & Hwall & Htick & Htrace & Hres).
  cbn in Hbefore, Hstats, Hq, Hwall, Htick, Htrace, Hres.
  exists k, r, w'.
  split; [exact Hrun|]. split; [unfold MAX_RETRIES in *; lia|].
  repeat split; try done.
  destruct Hres as [?|(?&?&?)]; [left; done|right].
  repeat split; try done. unfold MAX_RETRIES in *; lia.
Qed.


(** C10.  Whatever the service does, one call of [get_embedding] adds
    exactly 1 to [embedding_calls], although it sends between 1 and
    [MAX_RETRIES] requests, and it leaves every other field of the
    statistics as it was. *)
Theorem get_embedding_counts_one_call (E : Env) (text : string) (w : world) :
  let w' := (get_embedding E text w).2 in
  embedding_calls (stats w') = (embedding_calls (stats w) + 1)%nat /\
  total_books (stats w') = total_books (stats w) /\
  processed_books (stats w') = processed_books (stats w) /\
  successful_uploads (stats w') = successful_uploads (stats w) /\
  failed_uploads (stats w') = failed_uploads (stats w) /\
  start_time (stats w') = start_time (stats w) /\
  (1 <= tick w' - tick w <= MAX_RETRIES)%nat.
Proof.
  destruct (get_embedding_run E text w)
    as (k & r & w' & Hrun & Hk & _ & Hstats & _ & _ & Htick & _).
  cbn zeta. rewrite Hrun. cbn [snd]. rewrite Hstats, Htick.
  repeat split; try reflexivity; lia.
Qed.

(** ** The batch processor *)

Lemma quiet_refl w : quiet w w.
Proof. split; try reflexivity. exists []. by rewrite app_nil_r. Qed.

Lemma quiet_trans w1 w2 w3 : quiet w1 w2 -> quiet w2 w3 -> quiet w1 w3.
Proof.
  intros [? ? ? ? ? (e1 & ? & ?)] [? ? ? ? ? (e2 & ? & ?)].
  split; try congruence.
  exists (e1 ++ e2). split; [|by apply Forall_app]. rewrite app_assoc. congruence.
Qed.

Lemma quiet_count_failed w : quiet w (with_stats count_failed_upload w).
Proof. split; try reflexivity. exists []. by rewrite app_nil_r. Qed.

Lemma retries_embed_events text k : Forall embed_event (retries text k).
Proof.
  unfold retries. induction k as [|k IH]; cbn; [constructor|].
  repeat constructor; done.
Qed.

Section BatchProcessor.

Variable E : Env.

Lemma get_embedding_quiet text w r w' :
  get_embedding E text w = (r, w') ->
  quiet w w' /\ failed_uploads (stats w') = failed_uploads (stats w) /\
  exists v, r = Val v.
Proof.
  destruct (get_embedding_run E text w)
    as (k & r0 & w0 & Hrun & _ & _ & Hstats & Hq & _ & _ & Htrace & _).
  rewrite Hrun. intros [= <- <-]. split; [|split; [by rewrite Hstats|by eexists]].
  split; try (by rewrite Hstats); [done|].
  eexists. split; [exact Htrace|].
  apply Forall_app; split; [apply retries_embed_events|by repeat constructor].
Qed.

(** process_book, case by case on its two embedding calls. *)
Lemma process_book_run b i w :
  process_book E b i w =
  match get_embedding E (tag_text_of b) w with
  | (Val (Some tv), w1) =>
      match get_embedding E (description_of b) w1 with
      | (Val (Some dv), w2) =>
          (Val (Some (Point (book_id_to_uuid (key_of b i)) tv
                        [("book_id", JStr (key_of b i));
                         ("title", JStr (default "" (title b)));
                         ("author", JStr (default "" (author b)));
                         ("description", JStr (description_of b));
                         ("tags", JStrs (default [] (tags b)));
                         ("language", JStr (default "中文" (language b)));
                         ("cover_url", JStr (default "" (cover_url b)));
                         ("type", JStr "book")]%string),
                Some (Point (book_id_to_uuid (key_of b i)) dv
                        [("book_id", JStr (key_of b i));
                         ("type", JStr "book_desc")]%string)), w2)
      | (_, w2) => (Val (None, None), w2)
      end
  | (_, w1) => (Val (None, None), w1)
  end.
Proof.
  unfold process_book, tag_text_of, description_of, key_of.
  unfold mbind, M_bind, mret, M_ret, bind, ret, try_except.
  destruct (get_embedding E _ w) as [[[tv|]|e] w1]; try reflexivity.
  destruct (get_embedding E _ w1) as [[[dv|]|e] w2]; reflexivity.
Qed.

(** process_book returns both points or neither; when it returns both they
    carry the identifier derived from the record's key. *)
Lemma process_book_result b i w :
  exists r w', process_book E b i w = (Val r, w') /\
    quiet w w' /\ failed_uploads (stats w') = failed_uploads (stats w) /\
    (r = (None, None) \/
     exists t d, r = (Some t, Some d) /\
       point_id t = book_id_to_uuid (key_of b i) /\
       point_id d = book_id_to_uuid (key_of b i)).
Proof.
  rewrite process_book_run.
  destruct (get_embedding E (tag_text_of b) w) as [r1 w1] eqn:H1.
  destruct (get_embedding_quiet _ _ _ _ H1) as (Hq1 & Hf1 & v1 & ->).
  destruct v1 as [tv|]; [|by eauto 10].
  destruct (get_embedding E (description_of b) w1) as [r2 w2] eqn:H2.
  destruct (get_embedding_quiet _ _ _ _ H2) as (Hq2 & Hf2 & v2 & ->).
  pose proof (quiet_trans _ _ _ Hq1 Hq2).
  destruct v2 as [dv|]; eexists _, _; (split; [reflexivity|]);
    (split; [done|]); (split; [congruence|]); [right|left; done].
  eexists _, _. split; [reflexivity|]. done.
Qed.

Lemma process_book_fails b i w :
  embedding_fails E b w ->
  exists w', process_book E b i w = (Val (None, None), w').
Proof.
  unfold embedding_fails. rewrite process_book_run.
  destruct (get_embedding E (tag_text_of b) w) as [[[tv|]|e] w1]; cbn; eauto.
  destruct (get_embedding E (description_of b) w1) as [[[dv|]|e] w2]; cbn; eauto.
  discriminate.
Qed.

Lemma process_each_cons b rest idx tps dps n w :
  process_each E (b :: rest) idx tps dps n w =
  match process_book E b idx w with
  | (Val (Some t, Some d), w1) =>
      process_each E rest (S idx) (tps ++ [t]) (dps ++ [d]) (n + 1) w1
  | (Val _, w1) =>
      process_each E rest (S idx) tps dps n (with_stats count_failed_upload w1)
  | (Exc e, w1) => (Exc e, w1)
  end.
Proof.
  cbn [process_each]. unfold mbind, M_bind, bind, modify_stats.
  destruct (process_book E b idx w) as [[[[t|] [d|]]|e] w1]; reflexivity.
Qed.

Lemma process_each_app l1 : forall l2 idx tps dps n w,
  process_each E (l1 ++ l2) idx tps dps n w =
  match process_each E l1 idx tps dps n w with
  | (Val (t, d, m), w1) => process_each E l2 (idx + length l1) t d m w1
  | (Exc e, w1) => (Exc e, w1)
  end.
Proof.
  induction l1 as [|b l1 IH]; intros l2 idx tps dps n w.
  - cbn. by rewrite Nat.add_0_r.
  - cbn [app length]. rewrite !process_each_cons.
    replace (idx + S (length l1))%nat with (S idx + length l1)%nat by lia.
    destruct (process_book E b idx w) as [[[[t|] [d|]]|e] w1];
      try reflexivity; apply IH.
Qed.

Lemma process_each_run books : forall idx w,
  exists tps' dps' n' w',
    (forall tps dps n,
       process_each E books idx tps dps n w
       = (Val (tps ++ tps', dps ++ dps', n + n')%nat, w')) /\
    length tps' = n' /\ length dps' = n' /\
    point_id <$> tps' = point_id <$> dps' /\
    (n' <= length books)%nat /\
    (failed_uploads (stats w') + n' = failed_uploads (stats w) + length books)%nat /\
    quiet w w' /\
    point_id <$> tps' ⊆ derived_ids books idx /\
    (n' = length books -> point_id <$> tps' = derived_ids books idx).
Proof.
  induction books as [|b books IH]; intros idx w.
  - exists [], [], 0%nat, w. cbn.
    split_and!; try done; try lia; [|apply quiet_refl].
    intros tps dps n. by rewrite !app_nil_r, Nat.add_0_r.
  - destruct (process_book_result b idx w) as (r & w1 & Hbook & Hq & Hf & Hr).
    assert (Htail : derived_ids books (S idx)
                    = imap ((fun j b => book_id_to_uuid (key_of b (idx + j))) ∘ S) books).
    { unfold derived_ids. apply imap_ext. intros j x _. cbn. do 2 f_equal. lia. }
    destruct Hr as [->|(t & d & -> & Ht & Hd)].
    + destruct (IH (S idx) (with_stats count_failed_upload w1))
        as (tps' & dps' & n' & w' & Hrun & ? & ? & ? & ? & Hfail & Hq' & Hsub & Hall).
      exists tps', dps', n', w'. cbn [length] in *. cbn in Hfail.
      split_and!; try done; try lia.
      * intros tps dps n. rewrite process_each_cons, Hbook. apply Hrun.
      * eapply quiet_trans; [exact Hq|].
        eapply quiet_trans; [apply quiet_count_failed|exact Hq'].
      * unfold derived_ids at 1. cbn [imap]. rewrite <- Htail.
        by apply list_subseteq_cons.
    + destruct (IH (S idx) w1)
        as (tps' & dps' & n' & w' & Hrun & ? & ? & ? & ? & Hfail & Hq' & Hsub & Hall).
      exists (t :: tps'), (d :: dps'), (S n'), w'.
      cbn [app length fmap list_fmap] in *.
      split_and!; try done; try lia.
      * intros tps dps n. rewrite process_each_cons, Hbook, Hrun.
        rewrite <- !app_assoc. cbn [app]. do 3 f_equal. lia.
      * rewrite Ht, Hd. by f_equal.
      * by eapply quiet_trans.
      * unfold derived_ids at 1. cbn [imap]. rewrite <- Htail, Nat.add_0_r, Ht.
        by apply list_subseteq_skip.
      * intros Hn. unfold derived_ids at 1. cbn [imap].
        rewrite <- Htail, Nat.add_0_r, Ht. f_equal. apply Hall. lia.
Qed.

Lemma process_batch_run books start w :
  exists tps dps n w',
    process_batch E books start w = (Val (tps, dps, n), w') /\
    (forall tps0 dps0 n0,
       process_each E books start tps0 dps0 n0 w
       = (Val (tps0 ++ tps, dps0 ++ dps, n0 + n)%nat, w')) /\
    length tps = n /\ length dps = n /\
    point_id <$> tps = point_id <$> dps /\
    (n <= length books)%nat /\
    (failed_uploads (stats w') + n = failed_uploads (stats w) + length books)%nat /\
    quiet w w' /\
    point_id <$> tps ⊆ derived_ids books start /\
    (n = length books -> point_id <$> tps = derived_ids books start).
Proof.
  unfold process_batch.
  destruct (process_each_run books start w) as (tps & dps & n & w' & Hrun & H).
  exists tps, dps, n, w'. split; [apply (Hrun [] [] 0%nat)|]. split; [exact Hrun|exact H].
Qed.

End BatchProcessor.

(** ** Identity *)

Lemma book_id_to_uuid_canonical (k : string) :
  canonical_uuid (book_id_to_uuid k) = true /\
  length (MD5.digest (MD5.encode k)) = 16%nat.
Proof.
  destruct (digest_shape (MD5.encode k)) as (b & Hb & Hlen & Hall).
  unfold book_id_to_uuid, MD5.hexdigest. rewrite Hb.
  split; [by apply uuid_format_canonical | done].
Qed.

(** C1.  The identifier is a function of the key alone: equal keys give
    equal identifiers, whether both come from the method of
    [import_books_enhanced.py] or one of them from the copy in
    [import_cleaned_books_1000.py]; the identifier is the 16-byte (128-bit)
    MD5 digest of the key in the hyphenated 8-4-4-4-12 lower-case
    hexadecimal form. *)
Theorem book_id_to_uuid_deterministic (k1 k2 : string) :
  k1 = k2 ->
  book_id_to_uuid k1 = book_id_to_uuid k2 /\
  book_id_to_uuid k1 = Cleaned1000.book_id_to_uuid k2 /\
  canonical_uuid (book_id_to_uuid k1) = true /\
  length (MD5.digest (MD5.encode k1)) = 16%nat.
Proof.
  intros <-. split; [reflexivity|]. split; [reflexivity|].
  apply book_id_to_uuid_canonical.
Qed.

Lemma book_id_to_uuid_deterministic_witness :
  book_id_to_uuid "bk_0" = book_id_to_uuid "bk_0" /\
  book_id_to_uuid "bk_0" = Cleaned1000.book_id_to_uuid "bk_0" /\
  canonical_uuid (book_id_to_uuid "bk_0") = true /\
  length (MD5.digest (MD5.encode "bk_0")) = 16%nat.
Proof. exact (book_id_to_uuid_deterministic "bk_0" "bk_0" eq_refl). Defined.

(** The identifier given to a record does not depend on the run: two
    executions, in any two worlds and against any two environments, give
    records with the same key the same identifier. *)
Lemma identifier_independent_of_run E1 E2 b1 b2 i1 i2 w1 w2 t1 d1 t2 d2 w1' w2' :
  key_of b1 i1 = key_of b2 i2 ->
  process_book E1 b1 i1 w1 = (Val (Some t1, Some d1), w1') ->
  process_book E2 b2 i2 w2 = (Val (Some t2, Some d2), w2') ->
  point_id t1 = point_id t2 /\ point_id d1 = point_id d2.
Proof.
  intros Hkey H1 H2.
  destruct (process_book_result E1 b1 i1 w1) as (r1 & ? & Hr1 & _ & _ & Hc1).
  destruct (process_book_result E2 b2 i2 w2) as (r2 & ? & Hr2 & _ & _ & Hc2).
  rewrite H1 in Hr1. rewrite H2 in Hr2. simplify_eq.
  destruct Hc1 as [?|(? & ? & ? & Ht1 & Hd1)]; [done|].
  destruct Hc2 as [?|(? & ? & ? & Ht2 & Hd2)]; [done|].
  simplify_eq. rewrite Ht1, Hd1, Ht2, Hd2, Hkey. done.
Qed.

(** ** Tag text *)

Lemma retries_then_request text k :
  exists rest, retries text k ++ [Sent (embed_request text)] = Sent (embed_request text) :: rest.
Proof. destruct k; cbn; eauto. Qed.

Lemma get_embedding_first_event E text w :
  exists rest, trace (get_embedding E text w).2 = trace w ++ Sent (embed_request text) :: rest.
Proof.
  destruct (get_embedding_run E text w)
    as (k & r & w' & -> & _ & _ & _ & _ & _ & _ & Htrace & _).
  destruct (retries_then_request text k) as (rest & Hrest).
  exists rest. cbn. by rewrite Htrace, Hrest.
Qed.

(** C8 (as the code has it).  The text embedded for the tag vector of a
    record is "分類：" followed by the tags joined with ", " when the tag list
    is not empty, and "書名：" followed by the title otherwise; it is the
    prompt of the first request process_book sends.  With an empty tag list
    the text is never the bare category prefix. *)
Theorem tag_text_by_tags (E : Env) (b : book) (i : nat) (w : world) :
  tag_text_of b =
    match default [] (tags b) with
    | [] => ("書名：" +:+ default "" (title b))%string
    | t :: ts => ("分類：" +:+ join ", " (t :: ts))%string
    end /\
  (exists rest, trace (process_book E b i w).2
                = trace w ++ Sent (PostEmbeddings EMBEDDING_MODEL (tag_text_of b)) :: rest) /\
  (forall title : string, tags_text [] title <> "分類："%string).
Proof.
  split; [|split].
  - unfold tag_text_of, tags_text. by destruct (default [] (tags b)).
  - rewrite process_book_run.
    destruct (get_embedding_first_event E (tag_text_of b) w) as (rest & Hfirst).
    destruct (get_embedding E (tag_text_of b) w) as [r1 w1] eqn:H1. cbn [snd] in Hfirst.
    assert (Hext : forall r2 w2, get_embedding E (description_of b) w1 = (r2, w2) ->
                     exists evs, trace w2 = trace w1 ++ evs).
    { intros r2 w2 H2. destruct (get_embedding_quiet _ _ _ _ _ H2) as ([_ _ _ _ _ (evs & ? & _)] & _).
      by exists evs. }
    destruct r1 as [[tv|]|e]; cbn [snd]; eauto.
    destruct (get_embedding E (description_of b) w1) as [r2 w2] eqn:H2.
    destruct (Hext _ _ eq_refl) as (evs & Hevs).
    exists (rest ++ evs).
    assert (trace w2 = trace w ++ Sent (PostEmbeddings EMBEDDING_MODEL (tag_text_of b)) :: rest ++ evs)
      as Htr.
    { rewrite Hevs, Hfirst, <- app_assoc. reflexivity. }
    destruct r2 as [[dv|]|e]; exact Htr.
  - intros t. cbn. discriminate.
Qed.

(** The spec's English rendering of the title prefix is not what the code
    embeds. *)
Lemma tag_text_is_not_english :
  tag_text_of (Book (Some "b1") (Some "Dune") None None (Some []) None None)
  <> ("Title: " +:+ "Dune")%string.
Proof. vm_compute. discriminate. Qed.

(** ** Partial failure inside a batch *)

Section Outcomes.

Variable E : Env.

Lemma is_served_true f : f = Served -> is_served f = true.
Proof. by intros ->. Qed.

Lemma is_served_false f : f <> Served -> is_served f = false.
Proof. by destruct f. Qed.

(** What [get_embedding] returns, read off the environment. *)
Lemma get_embedding_outcome text w :
  exists r w', get_embedding E text w = (Val r, w') /\
    failed_uploads (stats w') = failed_uploads (stats w) /\
    match first_served E (tick w) MAX_RETRIES with
    | Some a => is_Some r /\ tick w' = (tick w + a)%nat
    | None => r = None /\ tick w' = (tick w + MAX_RETRIES)%nat
    end.
Proof.
  destruct (get_embedding_run E text w)
    as (k & r & w' & Hrun & Hk & Hbefore & Hs & _ & _ & Htick & _ & Hr).
  exists r, w'. split; [exact Hrun|]. split; [by rewrite Hs|].
  unfold MAX_RETRIES in *. cbn [first_served].
  assert (H0 : (tick w + 0 = tick w)%nat) by lia.
  assert (H1 : (tick w + 1 = S (tick w))%nat) by lia.
  assert (H2 : (tick w + 2 = S (S (tick w)))%nat) by lia.
  destruct k as [|[|[|k]]]; [| | |lia].
  - rewrite H0 in Hr. destruct Hr as [(Hf & ->)|(_ & ? & _)]; [|lia].
    rewrite (is_served_true _ Hf). split; [done|lia].
  - pose proof (Hbefore 0%nat ltac:(lia)) as Hf0. rewrite H0 in Hf0.
    rewrite (is_served_false _ Hf0).
    rewrite H1 in Hr. destruct Hr as [(Hf & ->)|(_ & ? & _)]; [|lia].
    rewrite (is_served_true _ Hf). split; [done|lia].
  - pose proof (Hbefore 0%nat ltac:(lia)) as Hf0. rewrite H0 in Hf0.
    pose proof (Hbefore 1%nat ltac:(lia)) as Hf1. rewrite H1 in Hf1.
    rewrite (is_served_false _ Hf0), (is_served_false _ Hf1).
    rewrite H2 in Hr. destruct Hr as [(Hf & ->)|(Hf & _ & ->)].
    + rewrite (is_served_true _ Hf). split; [done|lia].
    + rewrite (is_served_false _ Hf). split; [done|lia].
Qed.

Lemma process_book_outcome b i w :
  exists r w', process_book E b i w = (Val r, w') /\
    failed_uploads (stats w') = failed_uploads (stats w) /\
    tick w' = (record_outcome E (tick w)).2 /\
    if (record_outcome E (tick w)).1
    then exists t d, r = (Some t, Some d) /\
           point_id t = book_id_to_uuid (key_of b i) /\
           point_id d = book_id_to_uuid (key_of b i)
    else r = (None, None).
Proof.
  rewrite process_book_run. unfold record_outcome.
  destruct (get_embedding_outcome (tag_text_of b) w) as (r1 & w1 & -> & Hf1 & H1).
  destruct (first_served E (tick w) MAX_RETRIES) as [a|].
  - destruct H1 as ([tv ->] & Ht1).
    destruct (get_embedding_outcome (description_of b) w1) as (r2 & w2 & -> & Hf2 & H2).
    rewrite Ht1 in H2.
    destruct (first_served E (tick w + a) MAX_RETRIES) as [a'|].
    + destruct H2 as ([dv ->] & Ht2). eexists _, _. split; [reflexivity|].
      cbn [fst snd]. split_and!; [congruence|lia|]. by eexists _, _.
    + destruct H2 as (-> & Ht2). eexists _, _. split; [reflexivity|].
      cbn [fst snd]. split_and!; [congruence|lia|done].
  - destruct H1 as (-> & Ht1). eexists _, _. split; [reflexivity|].
    cbn [fst snd]. split_and!; done.
Qed.

Lemma derived_ids_cons b books idx :
  derived_ids (b :: books) idx = book_id_to_uuid (key_of b idx) :: derived_ids books (S idx).
Proof.
  unfold derived_ids. cbn [imap]. rewrite Nat.add_0_r. f_equal.
  apply imap_ext. intros j x _. cbn. do 2 f_equal. lia.
Qed.

Lemma process_each_outcomes books : forall idx w,
  let oc := embedding_outcomes E (length books) (tick w) in
  exists tps' dps' n' w',
    (forall tps dps n,
       process_each E books idx tps dps n w
       = (Val (tps ++ tps', dps ++ dps', n + n')%nat, w')) /\
    point_id <$> tps' = survivors oc (derived_ids books idx) /\
    point_id <$> dps' = survivors oc (derived_ids books idx) /\
    n' = length tps' /\ n' = length dps' /\
    (n' + failures oc = length books)%nat /\
    failed_uploads (stats w') = (failed_uploads (stats w) + failures oc)%nat.
Proof.
  induction books as [|b books IH]; intros idx w; cbn zeta.
  - exists [], [], 0%nat, w. cbn. split_and!; try done; try lia.
    intros tps dps n. by rewrite !app_nil_r, Nat.add_0_r.
  - cbn [length embedding_outcomes]. rewrite derived_ids_cons.
    destruct (process_book_outcome b idx w) as (r & w1 & Hbook & Hf1 & Ht1 & Hr).
    destruct (record_outcome E (tick w)) as [ok t'] eqn:Hoc. cbn [fst snd] in *.
    destruct ok.
    + destruct Hr as (t & d & -> & Hidt & Hidd).
      destruct (IH (S idx) w1) as (tps' & dps' & n' & w' & Hrun & Hit & Hid & Hnt & Hnd & Hn & Hf).
      rewrite Ht1 in Hit, Hid, Hn, Hf.
      exists (t :: tps'), (d :: dps'), (S n'), w'. cbn [survivors].
      split_and!.
      * intros tps dps n. rewrite process_each_cons, Hbook, Hrun.
        rewrite <- !app_assoc. cbn [app]. do 3 f_equal. lia.
      * cbn [fmap list_fmap]. by rewrite Hidt, <- Hit.
      * cbn [fmap list_fmap]. by rewrite Hidd, <- Hid.
      * cbn [length]. lia.
      * cbn [length]. lia.
      * unfold failures in *. cbn [List.filter negb length]. lia.
      * unfold failures in *. cbn [List.filter negb]. lia.
    + subst r.
      destruct (IH (S idx) (with_stats count_failed_upload w1))
        as (tps' & dps' & n' & w' & Hrun & Hit & Hid & Hnt & Hnd & Hn & Hf).
      change (tick (with_stats count_failed_upload w1)) with (tick w1) in *.
      rewrite Ht1 in Hit, Hid, Hn, Hf. cbn in Hf.
      exists tps', dps', n', w'. cbn [survivors].
      split_and!; try done.
      * intros tps dps n. rewrite process_each_cons, Hbook. apply Hrun.
      * unfold failures in *. cbn [List.filter negb length]. lia.
      * unfold failures in *. cbn [List.filter negb length]. lia.
Qed.

End Outcomes.

(** C3.  Take any batch, any start index and any answers of the embedding
    service, and mark each record of the batch by what the service does
    with its requests: [false] when one of its two texts gets no vector
    within three requests (the tag text first; the description is asked
    for only after the tag text got a vector), [true] otherwise.  Then
    [process_batch] returns, without raising: two lists whose identifiers,
    in order, are exactly those of the records marked [true] (a record
    marked [false] is in neither list, every other record is in both); a
    success count that is the length of both lists and the size of the
    batch minus the number of records marked [false]; and the failure
    counter has moved by the number of records marked [false]. *)
Theorem process_batch_isolates_failure (E : Env) (books : list book) (start : nat)
    (w : world) :
  let oc := embedding_outcomes E (length books) (tick w) in
  exists tps dps n w',
    process_batch E books start w = (Val (tps, dps, n), w') /\
    point_id <$> tps = survivors oc (derived_ids books start) /\
    point_id <$> dps = survivors oc (derived_ids books start) /\
    length tps = n /\ length dps = n /\
    n = (length books - failures oc)%nat /\
    (failures oc <= length books)%nat /\
    failed_uploads (stats w') = (failed_uploads (stats w) + failures oc)%nat.
Proof.
  intros oc.
  destruct (process_each_outcomes E books start w)
    as (tps & dps & n & w' & Hrun & Hit & Hid & Hnt & Hnd & Hn & Hf).
  fold oc in Hit, Hid, Hn, Hf.
  exists tps, dps, n, w'. unfold process_batch.
  split; [exact (Hrun [] [] 0%nat)|]. split_and!; try done; lia.
Qed.

(** Take any batch [pre ++ b :: post] in which one of the two embedding
    calls of record [b] fails.  Then [b] yields no point at all and the
    failure counter moves by one for it; the batch's two output lists and its
    success count are those of the records before [b] followed by those of
    the records after [b], which are processed all the same.  For the whole
    batch the two lists are as long as the success count, which is the size
    of the batch minus the records counted as failed. *)
Lemma process_batch_around_failure (E : Env) (pre post : list book) (b : book)
    (start : nat) (w w1 : world) (t1 d1 : list point) (n1 : nat) :
  process_batch E pre start w = (Val (t1, d1, n1), w1) ->
  embedding_fails E b w1 ->
  exists w2 t2 d2 n2 w3,
    process_book E b (start + length pre) w1 = (Val (None, None), w2) /\
    process_batch E post (start + length pre + 1) (with_stats count_failed_upload w2)
      = (Val (t2, d2, n2), w3) /\
    process_batch E (pre ++ b :: post) start w = (Val (t1 ++ t2, d1 ++ d2, n1 + n2)%nat, w3) /\
    length (t1 ++ t2) = (n1 + n2)%nat /\
    length (d1 ++ d2) = (n1 + n2)%nat /\
    (1 <= failed_uploads (stats w3) - failed_uploads (stats w))%nat /\
    (n1 + n2 = length (pre ++ b :: post)
               - (failed_uploads (stats w3) - failed_uploads (stats w)))%nat.
Proof.
  intros Hpre Hfail.
  destruct (process_book_fails E b (start + length pre) w1 Hfail) as (w2 & Hb).
  destruct (process_batch_run E pre start w)
    as (t1' & d1' & n1' & w1' & Hpre' & _ & Hlt1 & Hld1 & _ & Hle1 & Hf1 & _).
  rewrite Hpre in Hpre'. injection Hpre' as <- <- <- <-.
  destruct (process_book_result E b (start + length pre) w1)
    as (r & w2' & Hb' & _ & Hf2 & _).
  rewrite Hb in Hb'. injection Hb' as <- <-.
  destruct (process_batch_run E post (start + length pre + 1)
              (with_stats count_failed_upload w2))
    as (t2 & d2 & n2 & w3 & Hpost & Hacc & Hlt2 & Hld2 & _ & Hle2 & Hf3 & _).
  cbn in Hf3.
  exists w2, t2, d2, n2, w3.
  split; [exact Hb|]. split; [exact Hpost|].
  split.
  { unfold process_batch in *. rewrite process_each_app, Hpre, process_each_cons, Hb.
    replace (S (start + length pre)) with (start + length pre + 1)%nat by lia.
    apply Hacc. }
  rewrite !length_app. cbn [length].
  split_and!; lia.
Qed.

(** ** The store and the dual write *)

Lemma dom_store_points pts : forall m : gmap string point,
  dom (store_points pts m) = dom m ∪ ids_of pts.
Proof.
  unfold store_points, ids_of.
  induction pts as [|p pts IH]; intros m; cbn.
  - set_solver.
  - rewrite IH, dom_insert_L. set_solver.
Qed.

Lemma error_is_not_ok (code : Z) :
  (code =? 200) && bool_decide (Some "error"%string = Some "ok"%string) = false.
Proof. apply andb_false_r. Qed.

#[local] Arguments store_points : simpl never.
#[local] Arguments delete_points : simpl never.

Section DualWrite.

Variable E : Env.

(** upsert_to_qdrant never raises; it reports success exactly when it had
    nothing to send, or when the request was served and the collection
    exists, in which case the points are in the collection afterwards. *)
Lemma upsert_to_qdrant_run c pts w :
  exists ok w', upsert_to_qdrant E c pts w = (Val ok, w') /\
    stats w' = stats w /\
    trace w' = trace w ++ (if decide (pts = []) then [] else [Sent (PutPoints c pts)]) /\
    (forall c', c' <> c -> qdrant w' !! c' = qdrant w !! c') /\
    (qdrant w' !! c = qdrant w !! c \/
     exists m, qdrant w !! c = Some m /\ qdrant w' !! c = Some (store_points pts m)) /\
    (ok = true ->
     pts = [] /\ w' = w \/
     pts <> [] /\ fate_at E (tick w) = Served /\
     exists m, qdrant w !! c = Some m /\ qdrant w' !! c = Some (store_points pts m)).
Proof.
  unfold upsert_to_qdrant. destruct pts as [|p pts].
  { exists true, w. cbn. rewrite app_nil_r. split_and!; auto. }
  set (ps := p :: pts). unfold http. unfold_M. cbn [answer].
  rewrite decide_False by done.
  destruct (fate_at E (tick w)) as [|code| |].
  - destruct (qdrant w !! c) as [m|] eqn:Hc; cbn.
    + eexists _, _. split; [reflexivity|]. cbn.
      split_and!; try done.
      * intros c' Hne. by rewrite lookup_insert_ne.
      * right. exists m. by rewrite lookup_insert_eq.
      * intros _. right. split_and!; try done. exists m. by rewrite lookup_insert_eq.
    + eexists _, _. split; [reflexivity|]. cbn. split_and!; auto. discriminate.
  - cbn. rewrite error_is_not_ok.
    eexists _, _. split; [reflexivity|]. cbn. split_and!; auto. discriminate.
  - cbn. eexists _, _. split; [reflexivity|]. cbn. split_and!; auto. discriminate.
  - destruct (qdrant w !! c) as [m|] eqn:Hc; cbn.
    + eexists _, _. split; [reflexivity|]. cbn.
      split_and!; try done.
      * intros c' Hne. by rewrite lookup_insert_ne.
      * right. exists m. by rewrite lookup_insert_eq.
    + eexists _, _. split; [reflexivity|]. cbn. split_and!; auto. discriminate.
Qed.

(** The batch loop body, case by case on what its three calls return. *)
Lemma import_batch_run books bs i w :
  import_batch E books bs i w =
  match process_batch E (take bs (drop i books)) i w with
  | (Val (tps, dps, n), w1) =>
      if bool_decide (tps = []) || bool_decide (dps = [])
      then (Val tt, emit (Printed BatchEmpty) w1)
      else
        match upsert_to_qdrant E "tags_vecs" tps w1 with
        | (Val true, w2) =>
            match upsert_to_qdrant E "desc_vecs" dps w2 with
            | (Val true, w3) =>
                (Val tt, completed (length (take bs (drop i books))) n
                           (i + length (take bs (drop i books))) (length books) w3)
            | (Val false, w3) => (Val tt, emit (Printed DescUploadFailed) w3)
            | (Exc _, w3) => (Val tt, emit (Printed BatchException) w3)
            end
        | (Val false, w2) => (Val tt, emit (Printed TagsUploadFailed) w2)
        | (Exc _, w2) => (Val tt, emit (Printed BatchException) w2)
        end
  | (Exc _, w1) => (Val tt, emit (Printed BatchException) w1)
  end.
Proof.
  unfold import_batch, completed, print_progress. unfold_M.
  destruct (process_batch E _ i w) as [[[[tps dps] n]|e] w1]; [|reflexivity].
  lazy beta iota.
  destruct (bool_decide (tps = []) || bool_decide (dps = [])); [reflexivity|].
  destruct (upsert_to_qdrant E "tags_vecs" tps w1) as [[[|]|e] w2]; try reflexivity.
  lazy beta iota. cbn [negb].
  destruct (upsert_to_qdrant E "desc_vecs" dps w2) as [[[|]|e] w3]; try reflexivity.
  cbn. destruct (start_time (stats w3)); reflexivity.
Qed.

Lemma upsert_to_qdrant_any c pts w ok w' :
  upsert_to_qdrant E c pts w = (ok, w') ->
  (exists b, ok = Val b) /\
  stats w' = stats w /\
  trace w' = trace w ++ (if decide (pts = []) then [] else [Sent (PutPoints c pts)]) /\
  (forall c', c' <> c -> collection c' w' = collection c' w) /\
  (collection c w' = collection c w \/ collection c w' = store_points pts (collection c w)).
Proof.
  destruct (upsert_to_qdrant_run c pts w)
    as (b & w0 & -> & Hstats & Htrace & Hother & Hc & _).
  intros [= <- <-]. split_and!; eauto.
  - intros c' Hne. unfold collection. by rewrite Hother.
  - unfold collection. destruct Hc as [->|(m & -> & ->)]; auto.
Qed.

Lemma upsert_to_qdrant_true c pts w w' :
  upsert_to_qdrant E c pts w = (Val true, w') ->
  collection c w' = store_points pts (collection c w) /\
  ids_in c w' = ids_in c w ∪ ids_of pts.
Proof.
  destruct (upsert_to_qdrant_run c pts w)
    as (b & w0 & -> & _ & _ & _ & _ & Htrue).
  intros [= -> <-].
  assert (collection c w0 = store_points pts (collection c w)) as Hcol.
  { unfold collection.
    destruct (Htrue eq_refl) as [[-> ->]|(_ & _ & m & -> & ->)]; reflexivity. }
  split; [exact Hcol|]. unfold ids_in. by rewrite Hcol, dom_store_points.
Qed.

End DualWrite.

(** C2.  Whenever process_book returns a pair of points, both carry the same
    identifier.  For a batch whose two upserts both report success, the
    points sent to tags_vecs and those sent to desc_vecs pair up with equal
    identifiers, so the two sets of identifiers written are the same set;
    each collection gains exactly that set, and if the two collections held
    the same identifiers before the batch they hold the same identifiers
    after it.  This is the state in which the batch loop leaves the store. *)
Theorem dual_write_same_identifiers (E : Env) (books : list book) (bs i : nat)
    (w w1 w2 w3 : world) (tps dps : list point) (n : nat) :
  process_batch E (take bs (drop i books)) i w = (Val (tps, dps, n), w1) ->
  upsert_to_qdrant E "tags_vecs" tps w1 = (Val true, w2) ->
  upsert_to_qdrant E "desc_vecs" dps w2 = (Val true, w3) ->
  (forall b j wa t d wb,
     process_book E b j wa = (Val (Some t, Some d), wb) -> point_id t = point_id d) /\
  point_id <$> tps = point_id <$> dps /\
  ids_of tps = ids_of dps /\
  ids_in "tags_vecs" w3 = ids_in "tags_vecs" w ∪ ids_of tps /\
  ids_in "desc_vecs" w3 = ids_in "desc_vecs" w ∪ ids_of dps /\
  (ids_in "tags_vecs" w = ids_in "desc_vecs" w ->
   ids_in "tags_vecs" w3 = ids_in "desc_vecs" w3) /\
  qdrant (import_batch E books bs i w).2 = qdrant w3.
Proof.
  intros Hbatch Htags Hdesc.
  destruct (process_batch_run E (take bs (drop i books)) i w)
    as (tps' & dps' & n' & w1' & Hrun & _ & Hlt & Hld & Hids & _ & _ & Hq & _).
  rewrite Hbatch in Hrun. injection Hrun as <- <- <- <-.
  destruct (upsert_to_qdrant_true E _ _ _ _ Htags) as (_ & Ht).
  destruct (upsert_to_qdrant_true E _ _ _ _ Hdesc) as (_ & Hd).
  destruct (upsert_to_qdrant_any E _ _ _ _ _ Htags) as (_ & _ & _ & Hto & _).
  destruct (upsert_to_qdrant_any E _ _ _ _ _ Hdesc) as (_ & _ & _ & Hdo & _).
  assert (Hsame : ids_of tps = ids_of dps) by (unfold ids_of; by rewrite Hids).
  assert (Htags3 : ids_in "tags_vecs" w3 = ids_in "tags_vecs" w ∪ ids_of tps).
  { unfold ids_in in *. rewrite (Hdo "tags_vecs") by done. rewrite Ht.
    unfold collection. by rewrite (quiet_qdrant _ _ Hq). }
  assert (Hdesc3 : ids_in "desc_vecs" w3 = ids_in "desc_vecs" w ∪ ids_of dps).
  { unfold ids_in in *. rewrite Hd. rewrite (Hto "desc_vecs") by done.
    unfold collection. by rewrite (quiet_qdrant _ _ Hq). }
  split_and!; try done.
  - intros b j wa t d wb Hbook.
    destruct (process_book_result E b j wa) as (r & wb' & Hr & _ & _ & Hc).
    rewrite Hbook in Hr. injection Hr as <- <-.
    destruct Hc as [?|(t' & d' & [= <- <-] & -> & ->)]; done.
  - intros Hbefore. by rewrite Htags3, Hdesc3, Hbefore, Hsame.
  - rewrite import_batch_run, Hbatch.
    destruct (bool_decide (tps = []) || bool_decide (dps = [])) eqn:Hempty.
    + assert (tps = [] /\ dps = []) as [-> ->].
      { destruct tps, dps; try done; cbn in Hlt, Hld; lia. }
      cbn in Htags, Hdesc. injection Htags as <-. injection Hdesc as <-. reflexivity.
    + rewrite Htags, Hdesc. unfold completed. cbn.
      by destruct (start_time (stats w3)).
Qed.

(** ** What a computation may do to the world *)

Section Preserves.

Context (R : relation world) `{!PreOrder R}.

Lemma preserves_ret {A} (a : A) : preserves R (mret a).
Proof. intros w r w' [= <- <-]. reflexivity. Qed.

Lemma preserves_raise {A} (e : exn) : preserves R (@raise A e).
Proof. intros w r w' [= <- <-]. reflexivity. Qed.

Lemma preserves_bind {A B} (m : M A) (k : A -> M B) :
  preserves R m -> (forall a, preserves R (k a)) -> preserves R (m ≫= k).
Proof.
  intros Hm Hk w r w'. unfold mbind, M_bind, bind.
  destruct (m w) as [[a|e] w1] eqn:Hmw; intros Hrun.
  - etrans; [exact (Hm _ _ _ Hmw)|exact (Hk _ _ _ _ Hrun)].
  - injection Hrun as <- <-. exact (Hm _ _ _ Hmw).
Qed.

Lemma preserves_try_except {A} (m : M A) (h : exn -> M A) :
  preserves R m -> (forall e, preserves R (h e)) -> preserves R (try_except m h).
Proof.
  intros Hm Hh w r w'. unfold try_except.
  destruct (m w) as [[a|e] w1] eqn:Hmw; intros Hrun.
  - injection Hrun as <- <-. exact (Hm _ _ _ Hmw).
  - etrans; [exact (Hm _ _ _ Hmw)|exact (Hh _ _ _ _ Hrun)].
Qed.

Lemma preserves_when (b : bool) (m : M unit) : preserves R m -> preserves R (when b m).
Proof. destruct b; [done|]. intros _. apply preserves_ret. Qed.

Lemma preserves_if {A} (b : bool) (m1 m2 : M A) :
  preserves R m1 -> preserves R m2 -> preserves R (if b then m1 else m2).
Proof. by destruct b. Qed.

End Preserves.

#[local] Instance idle_preorder P : PreOrder (idle P).
Proof.
  split.
  - intros w. split; try done. exists []. by rewrite app_nil_r.
  - intros w1 w2 w3 [Hs1 Hc1 (e1 & Ht1 & ?)] [Hs2 Hc2 (e2 & Ht2 & ?)].
    split; [congruence | intros c; by rewrite Hc2 | ].
    exists (e1 ++ e2). split; [|by apply Forall_app]. by rewrite Ht2, Ht1, app_assoc.
Qed.

Lemma collection_insert_empty c c' w q :
  qdrant w !! c = None -> qdrant q = <[c := ∅]> (qdrant w) ->
  collection c' q = collection c' w.
Proof.
  intros Hnone Hq. unfold collection. rewrite Hq.
  destruct (decide (c = c')) as [->|Hne].
  - by rewrite lookup_insert_eq, Hnone.
  - by rewrite lookup_insert_ne.
Qed.

Section Phases.

Variable E : Env.

Lemma http_harmless r : harmless (Sent r) -> preserves (idle harmless) (http E r).
Proof.
  intros Hr w res w'. unfold http.
  assert (Hsent : idle harmless w (sent r w)).
  { split; try done. exists [Sent r]. split; [done|]. by constructor. }
  destruct (fate_at E (tick w)); try (intros [= <- <-]; exact Hsent).
  all: destruct (answer E (tick w) r (qdrant w)) as [resp q] eqn:Hans;
    intros [= <- <-];
    (split; [done| |exists [Sent r]; split; [done|by constructor]]);
    intros c'; destruct r; cbn in Hans, Hr; try done;
      try (by injection Hans as <- <-);
      destruct (qdrant w !! c) eqn:Hc; injection Hans as <- <-; try done;
      by eapply collection_insert_empty.
Qed.

Lemma print_idle P m : P (Printed m) -> preserves (idle P) (print m).
Proof.
  intros HP w r w' [= <- <-]. split; try done.
  exists [Printed m]. split; [done|by constructor].
Qed.

Lemma sleep_idle P ms : P (Slept ms) -> preserves (idle P) (sleep ms).
Proof.
  intros HP w r w' [= <- <-]. split; try done.
  exists [Slept ms]. split; [done|by constructor].
Qed.

Lemma get_stats_idle P : preserves (idle P) get_stats.
Proof. intros w r w' [= <- <-]. reflexivity. Qed.

Ltac preserves_steps :=
  repeat first
    [ apply preserves_ret
    | apply preserves_raise
    | apply preserves_bind; [| |intros ?]
    | apply preserves_try_except; [| |intros ?]
    | apply preserves_if
    | apply preserves_when
    | apply http_harmless; exact I
    | apply print_idle; exact I
    | apply sleep_idle; exact I
    | apply get_stats_idle
    | apply _ ].

Lemma check_services_idle : preserves (idle harmless) (check_services E).
Proof. unfold check_services. preserves_steps. Qed.

Lemma check_collection_exists_idle c :
  preserves (idle harmless) (check_collection_exists E c).
Proof. unfold check_collection_exists. preserves_steps. Qed.

Lemma create_collection_idle c : preserves (idle harmless) (create_collection E c).
Proof. unfold create_collection. preserves_steps. Qed.

(** Without the clear-existing flag, setting up the collections writes no
    point and deletes none. *)
Lemma setup_collections_idle : preserves (idle harmless) (setup_collections E false).
Proof.
  unfold setup_collections. generalize ["tags_vecs"; "desc_vecs"]%string as cs.
  induction cs as [|c cs IH]; cbn [setup_each]; preserves_steps;
    first [apply check_collection_exists_idle | apply create_collection_idle | exact IH].
Qed.

Lemma print_final_report_idle : preserves (idle harmless) print_final_report.
Proof.
  unfold print_final_report. preserves_steps.
  destruct (start_time _); preserves_steps.
Qed.

Lemma verify_each_idle cs : preserves (idle harmless) (verify_each E cs).
Proof.
  induction cs as [|c cs IH]; cbn [verify_each]; preserves_steps; [|exact IH].
  unfold json_points_count. destruct (json _); preserves_steps.
Qed.

Lemma verify_collections_idle : preserves (idle harmless) (verify_collections E).
Proof.
  unfold verify_collections.
  apply preserves_try_except; [apply _|apply verify_each_idle|intros e; preserves_steps].
Qed.

End Phases.

#[local] Instance grows_preorder A : PreOrder (grows A).
Proof.
  split.
  - intros w. split; try set_solver. exists []. by rewrite app_nil_r.
  - intros w1 w2 w3 [Hk1 Hw1 (e1 & Ht1 & ?)] [Hk2 Hw2 (e2 & Ht2 & ?)].
    split.
    + intros c. specialize (Hk1 c). specialize (Hk2 c). set_solver.
    + intros c. specialize (Hw1 c). specialize (Hw2 c). set_solver.
    + exists (e1 ++ e2). split; [|by apply Forall_app]. by rewrite Ht2, Ht1, app_assoc.
Qed.

Ltac no_deletes :=
  repeat first [apply Forall_nil_2 | apply Forall_cons_2; [cbn; tauto|]].

Lemma same_store_grows A w w' evs :
  (forall c, collection c w' = collection c w) ->
  trace w' = trace w ++ evs -> Forall (fun e => ~ is_delete e) evs ->
  grows A w w'.
Proof.
  intros Hc Ht Hev. split.
  - intros c. unfold ids_in. by rewrite Hc.
  - intros c. unfold ids_in. rewrite Hc. set_solver.
  - by exists evs.
Qed.

Lemma idle_grows A w w' : idle harmless w w' -> grows A w w'.
Proof.
  intros [_ Hc (evs & Ht & Hev)]. apply (same_store_grows A w w' evs); try done.
  eapply Forall_impl; [exact Hev|]. intros [[]| |]; cbn; tauto.
Qed.

Lemma quiet_grows A w w' : quiet w w' -> grows A w w'.
Proof.
  intros [Hq _ _ _ _ (evs & Ht & Hev)]. apply (same_store_grows A w w' evs); try done.
  - intros c. unfold collection. by rewrite Hq.
  - eapply Forall_impl; [exact Hev|]. intros [[]| |]; cbn; tauto.
Qed.

Lemma emit_printed_grows A m w : grows A w (emit (Printed m) w).
Proof.
  apply (same_store_grows A _ _ [Printed m]); try done. no_deletes.
Qed.

Lemma upsert_to_qdrant_grows E A c pts w ok w' :
  upsert_to_qdrant E c pts w = (ok, w') -> ids_of pts ⊆ A -> grows A w w'.
Proof.
  intros Hrun HA.
  destruct (upsert_to_qdrant_any E _ _ _ _ _ Hrun) as (_ & _ & Ht & Hother & Hc).
  assert (Hdom : ids_in c w' = ids_in c w \/ ids_in c w' = ids_in c w ∪ ids_of pts).
  { unfold ids_in. destruct Hc as [->| ->]; [by left|right]. apply dom_store_points. }
  split.
  - intros c'. destruct (decide (c' = c)) as [->|Hne].
    + destruct Hdom as [->| ->]; set_solver.
    + unfold ids_in. by rewrite Hother.
  - intros c'. destruct (decide (c' = c)) as [->|Hne].
    + destruct Hdom as [->| ->]; set_solver.
    + unfold ids_in. rewrite Hother by done. set_solver.
  - eexists. split; [exact Ht|]. destruct (decide (pts = [])); no_deletes.
Qed.

Lemma completed_grows A size n processed total w :
  grows A w (completed size n processed total w).
Proof.
  unfold completed. cbn.
  destruct (start_time (stats w)).
  - eapply (same_store_grows A _ _ [Printed _; Slept 500]);
      [done | cbn; rewrite <- app_assoc; reflexivity | no_deletes].
  - eapply (same_store_grows A _ _ [Slept 500]); [done | reflexivity | no_deletes].
Qed.

Lemma derived_ids_batch (books : list book) (bs i : nat) :
  derived_ids (take bs (drop i books)) i ⊆ derived_ids books 0.
Proof.
  intros x. unfold derived_ids. rewrite !elem_of_lookup_imap.
  intros (j & b & -> & Hj).
  apply lookup_take_Some in Hj as [Hj _]. rewrite lookup_drop in Hj.
  exists (i + j)%nat, b. split; [reflexivity|exact Hj].
Qed.

Section ImportLoop.

Variable E : Env.

Lemma both_upserts w1 w2 w3 tps dps :
  upsert_to_qdrant E "tags_vecs" tps w1 = (Val true, w2) ->
  upsert_to_qdrant E "desc_vecs" dps w2 = (Val true, w3) ->
  ids_in "tags_vecs" w3 = ids_in "tags_vecs" w1 ∪ ids_of tps /\
  ids_in "desc_vecs" w3 = ids_in "desc_vecs" w1 ∪ ids_of dps /\
  stats w3 = stats w1.
Proof.
  intros Htags Hdesc.
  destruct (upsert_to_qdrant_true E _ _ _ _ Htags) as (_ & Ht).
  destruct (upsert_to_qdrant_true E _ _ _ _ Hdesc) as (_ & Hd).
  destruct (upsert_to_qdrant_any E _ _ _ _ _ Htags) as (_ & Hs2 & _ & Hto & _).
  destruct (upsert_to_qdrant_any E _ _ _ _ _ Hdesc) as (_ & Hs3 & _ & Hdo & _).
  split_and!; [| |congruence].
  - unfold ids_in in *. by rewrite (Hdo "tags_vecs"), Ht.
  - unfold ids_in in *. by rewrite Hd, (Hto "desc_vecs").
Qed.

(** One turn of the batch loop: it never raises, deletes nothing, writes
    only identifiers of the input file, and adds to [successful_uploads] at
    most the size of the batch, the full size only when every record of the
    batch is in both collections afterwards. *)
Lemma import_batch_accounting books bs i w :
  exists w', import_batch E books bs i w = (Val tt, w') /\
    grows (catalog_ids books) w w' /\
    (successful_uploads (stats w')
     <= successful_uploads (stats w) + length (take bs (drop i books)))%nat /\
    (successful_uploads (stats w')
     = (successful_uploads (stats w) + length (take bs (drop i books)))%nat ->
     list_to_set (derived_ids (take bs (drop i books)) i)
       ⊆ ids_in "tags_vecs" w' ∩ ids_in "desc_vecs" w').
Proof.
  set (batch := take bs (drop i books)).
  rewrite import_batch_run. fold batch.
  destruct (process_batch_run E batch i w)
    as (tps & dps & n & w1 & -> & _ & Hlt & Hld & Hids & Hn & _ & Hq & Hsub & Hall).
  assert (HA : ids_of tps ⊆ catalog_ids books).
  { unfold ids_of, catalog_ids. intros x. rewrite !elem_of_list_to_set. intros Hx.
    apply (derived_ids_batch books bs i). by apply Hsub. }
  assert (HAd : ids_of dps ⊆ catalog_ids books).
  { unfold ids_of in *. by rewrite <- Hids. }
  assert (Hempty : forall w2, stats w2 = stats w1 ->
            (successful_uploads (stats w2) <= successful_uploads (stats w) + length batch)%nat /\
            (successful_uploads (stats w2) = (successful_uploads (stats w) + length batch)%nat ->
             forall S : gset string, list_to_set (derived_ids batch i) ⊆ S)).
  { intros w2 ->. rewrite (quiet_successful _ _ Hq). split; [lia|].
    intros Hlen. assert (batch = []) as -> by (destruct batch; [done|cbn in Hlen; lia]).
    intros S. cbn. set_solver. }
  destruct (bool_decide (tps = []) || bool_decide (dps = [])).
  { eexists. split; [reflexivity|]. destruct (Hempty (emit (Printed BatchEmpty) w1) eq_refl).
    split_and!; auto.
    etrans; [by apply quiet_grows|apply emit_printed_grows]. }
  destruct (upsert_to_qdrant E "tags_vecs" tps w1) as [r2 w2] eqn:Htags.
  destruct (upsert_to_qdrant_any E _ _ _ _ _ Htags) as ((ok2 & ->) & Hs2 & _).
  assert (Hg2 : grows (catalog_ids books) w w2).
  { etrans; [by apply quiet_grows|by eapply upsert_to_qdrant_grows]. }
  destruct ok2; cycle 1.
  { eexists. split; [reflexivity|].
    destruct (Hempty (emit (Printed TagsUploadFailed) w2) Hs2).
    split_and!; auto. etrans; [exact Hg2|apply emit_printed_grows]. }
  destruct (upsert_to_qdrant E "desc_vecs" dps w2) as [r3 w3] eqn:Hdesc.
  destruct (upsert_to_qdrant_any E _ _ _ _ _ Hdesc) as ((ok3 & ->) & Hs3 & _).
  assert (Hg3 : grows (catalog_ids books) w w3).
  { etrans; [exact Hg2|by eapply upsert_to_qdrant_grows]. }
  destruct ok3; cycle 1.
  { eexists. split; [reflexivity|].
    destruct (Hempty (emit (Printed DescUploadFailed) w3) ltac:(cbn; congruence)).
    split_and!; auto. etrans; [exact Hg3|apply emit_printed_grows]. }
  destruct (both_upserts _ _ _ _ _ Htags Hdesc) as (Ht3 & Hd3 & Hs13).
  eexists. split; [reflexivity|].
  set (wf := completed _ _ _ _ w3).
  assert (Hgf : grows (catalog_ids books) w3 wf) by apply completed_grows.
  assert (Hsf : successful_uploads (stats wf) = (successful_uploads (stats w) + n)%nat).
  { unfold wf, completed. cbn. destruct (start_time (stats w3)); cbn;
      by rewrite Hs13, (quiet_successful _ _ Hq). }
  split_and!.
  - by etrans.
  - lia.
  - intros Heq. assert (n = length batch) as Hfull by lia.
    rewrite <- (Hall Hfull). fold (ids_of tps).
    pose proof (grows_keeps _ _ _ Hgf "tags_vecs").
    pose proof (grows_keeps _ _ _ Hgf "desc_vecs").
    assert (ids_of dps = ids_of tps) by (unfold ids_of; by rewrite Hids).
    set_solver.
Qed.

(** The batch loop over any list of start indices. *)
Lemma import_batches_accounting books bs starts : forall w,
  exists w', import_batches E books bs starts w = (Val tt, w') /\
    grows (catalog_ids books) w w' /\
    (successful_uploads (stats w')
     <= successful_uploads (stats w)
        + sum_list_with (fun i => length (take bs (drop i books))) starts)%nat /\
    (successful_uploads (stats w')
     = (successful_uploads (stats w)
        + sum_list_with (fun i => length (take bs (drop i books))) starts)%nat ->
     forall i, i ∈ starts ->
       list_to_set (derived_ids (take bs (drop i books)) i)
         ⊆ ids_in "tags_vecs" w' ∩ ids_in "desc_vecs" w').
Proof.
  induction starts as [|i starts IH]; intros w.
  - exists w. cbn. split_and!; [done|reflexivity|lia|]. intros _ i Hi. by apply elem_of_nil in Hi.
  - cbn [import_batches sum_list_with]. unfold mbind, M_bind, bind.
    destruct (import_batch_accounting books bs i w) as (w1 & -> & Hg1 & Hle1 & Heq1).
    destruct (IH w1) as (w' & -> & Hg & Hle & Heq).
    exists w'. split_and!; [done|by etrans|lia|].
    intros Hsum j Hj. apply elem_of_cons in Hj as [->|Hj].
    + pose proof (grows_keeps _ _ _ Hg "tags_vecs").
      pose proof (grows_keeps _ _ _ Hg "desc_vecs").
      specialize (Heq1 ltac:(lia)). set_solver.
    + apply Heq; [lia|done].
Qed.

End ImportLoop.

(** C9.  When, for a batch, the upsert into tags_vecs reports success and
    the upsert into desc_vecs that follows reports failure, the loop body
    prints the failure and ends the turn without counting the batch as
    processed or uploaded.  The tag collection holds the batch's tag points
    (written over what it held before), no delete request is sent during
    the turn, and none is sent by the turns that follow, after which the
    identifiers of the batch are still in the tag collection. *)
Theorem failed_desc_write_keeps_tag_points (E : Env) (books : list book) (bs i : nat)
    (w w1 w2 w3 : world) (tps dps : list point) (n : nat) :
  process_batch E (take bs (drop i books)) i w = (Val (tps, dps, n), w1) ->
  upsert_to_qdrant E "tags_vecs" tps w1 = (Val true, w2) ->
  upsert_to_qdrant E "desc_vecs" dps w2 = (Val false, w3) ->
  let w' := emit (Printed DescUploadFailed) w3 in
  import_batch E books bs i w = (Val tt, w') /\
  processed_books (stats w') = processed_books (stats w) /\
  successful_uploads (stats w') = successful_uploads (stats w) /\
  tps <> [] /\
  collection "tags_vecs" w' = store_points tps (collection "tags_vecs" w) /\
  ids_of tps ⊆ ids_in "tags_vecs" w' /\
  (exists evs, trace w' = trace w ++ evs /\ Forall (fun e => ~ is_delete e) evs) /\
  (forall starts,
     let w'' := (import_batches E books bs starts w').2 in
     ids_of tps ⊆ ids_in "tags_vecs" w'' /\
     exists evs, trace w'' = trace w ++ evs /\ Forall (fun e => ~ is_delete e) evs).
Proof.
  intros Hbatch Htags Hdesc w'.
  destruct (process_batch_run E (take bs (drop i books)) i w)
    as (tps' & dps' & n' & w1' & Hrun & _ & Hlt & Hld & _ & _ & _ & Hq & _).
  rewrite Hbatch in Hrun. injection Hrun as <- <- <- <-.
  assert (Hdps : dps <> []).
  { intros ->. cbn in Hdesc. discriminate. }
  assert (Htps : tps <> []).
  { intros ->. destruct dps; [done|]. cbn in Hlt, Hld. lia. }
  assert (Hturn : import_batch E books bs i w = (Val tt, w')).
  { rewrite import_batch_run, Hbatch.
    rewrite (bool_decide_eq_false_2 (tps = [])), (bool_decide_eq_false_2 (dps = [])) by done.
    cbn [orb]. by rewrite Htags, Hdesc. }
  destruct (upsert_to_qdrant_true E _ _ _ _ Htags) as (Hcol & _).
  destruct (upsert_to_qdrant_any E _ _ _ _ _ Htags) as (_ & Hs2 & _).
  destruct (upsert_to_qdrant_any E _ _ _ _ _ Hdesc) as (_ & Hs3 & _ & Hother & _).
  assert (Hcol' : collection "tags_vecs" w' = store_points tps (collection "tags_vecs" w)).
  { change (collection "tags_vecs" w') with (collection "tags_vecs" w3).
    rewrite (Hother "tags_vecs") by done. rewrite Hcol.
    unfold collection. by rewrite (quiet_qdrant _ _ Hq). }
  assert (Hin : ids_of tps ⊆ ids_in "tags_vecs" w').
  { unfold ids_in. rewrite Hcol', dom_store_points. set_solver. }
  destruct (import_batch_accounting E books bs i w) as (wt & Hturn' & Hg & _).
  rewrite Hturn in Hturn'. injection Hturn' as <-.
  split_and!; try done.
  - cbn. by rewrite Hs3, Hs2, (quiet_processed _ _ Hq).
  - cbn. by rewrite Hs3, Hs2, (quiet_successful _ _ Hq).
  - apply (grows_trace _ _ _ Hg).
  - intros starts w''.
    destruct (import_batches_accounting E books bs starts w') as (wr & Hrest & Hgr & _).
    subst w''. rewrite Hrest. cbn [snd]. split.
    + pose proof (grows_keeps _ _ _ Hgr "tags_vecs"). set_solver.
    + apply (grows_trace (catalog_ids books) w wr). by etrans.
Qed.

Lemma process_batch_isolates_failure_witness :
  exists tps dps n w',
    process_batch one_bad_record [dune; emma; ulysses] 0 fresh = (Val (tps, dps, n), w') /\
    point_id <$> tps = survivors [true; false; true] (derived_ids [dune; emma; ulysses] 0) /\
    point_id <$> dps = survivors [true; false; true] (derived_ids [dune; emma; ulysses] 0) /\
    length tps = n /\ length dps = n /\
    n = (3 - 1)%nat /\
    (1 <= 3)%nat /\
    failed_uploads (stats w') = (failed_uploads (stats fresh) + 1)%nat.
Proof.
  exact (process_batch_isolates_failure one_bad_record [dune; emma; ulysses] 0 fresh).
Defined.

Lemma dual_write_same_identifiers_witness :
  exists tps dps w3,
    point_id <$> tps = point_id <$> dps /\
    ids_of tps = ids_of dps /\
    ids_in "tags_vecs" w3 = ids_in "tags_vecs" fresh ∪ ids_of tps /\
    ids_in "desc_vecs" w3 = ids_in "desc_vecs" fresh ∪ ids_of dps /\
    ids_in "tags_vecs" w3 = ids_in "desc_vecs" w3 /\
    qdrant (import_batch all_served [dune; emma] 10 0 fresh).2 = qdrant w3.
Proof.
  eexists _, _, _.
  edestruct (dual_write_same_identifiers all_served [dune; emma] 10 0 fresh)
    as (_ & H1 & H2 & H3 & H4 & H5 & H6).
  - vm_compute. reflexivity.
  - vm_compute. reflexivity.
  - vm_compute. reflexivity.
  - split_and!; [exact H1|exact H2|exact H3|exact H4|apply H5; reflexivity|exact H6].
Defined.

Lemma failed_desc_write_keeps_tag_points_witness :
  exists tps w3,
    let w' := emit (Printed DescUploadFailed) w3 in
    import_batch desc_refused [dune; emma] 10 0 fresh = (Val tt, w') /\
    processed_books (stats w') = processed_books (stats fresh) /\
    successful_uploads (stats w') = successful_uploads (stats fresh) /\
    tps <> [] /\
    collection "tags_vecs" w' = store_points tps (collection "tags_vecs" fresh) /\
    ids_of tps ⊆ ids_in "tags_vecs" w' /\
    (exists evs, trace w' = trace fresh ++ evs /\ Forall (fun e => ~ is_delete e) evs) /\
    (forall starts,
       let w'' := (import_batches desc_refused [dune; emma] 10 starts w').2 in
       ids_of tps ⊆ ids_in "tags_vecs" w'' /\
       exists evs, trace w'' = trace fresh ++ evs /\ Forall (fun e => ~ is_delete e) evs).
Proof.
  eexists _, _.
  eapply (failed_desc_write_keeps_tag_points desc_refused [dune; emma] 10 0 fresh).
  - vm_compute. reflexivity.
  - vm_compute. reflexivity.
  - vm_compute. reflexivity.
Defined.

(** ** Two runs over the same input *)

#[local] Instance same_stats_preorder : PreOrder same_stats.
Proof. split; [by intros w|]. intros w1 w2 w3 H1 H2. unfold same_stats in *. congruence. Qed.

Lemma preserves_weaken {A} (R R' : relation world) (m : M A) :
  (forall w w', R w w' -> R' w w') -> preserves R m -> preserves R' m.
Proof. intros HR Hm w r w' Hrun. apply HR. exact (Hm _ _ _ Hrun). Qed.

Lemma batch_starts_run n step w res w' :
  batch_starts n step w = (res, w') ->
  w' = w /\
  (step = 0 /\ res = Exc ValueError \/
   step < 0 /\ res = Val [] \/
   0 < step /\ res = Val (chunk_starts n (Z.to_nat step))).
Proof.
  unfold batch_starts.
  destruct (Z.eqb_spec step 0) as [->|Hne].
  { intros [= <- <-]. auto. }
  destruct (Z.ltb_spec step 0); intros [= <- <-]; split; auto.
  right; right. split; [lia|reflexivity].
Qed.

Lemma sum_list_with_map {A B} (f : B -> nat) (g : A -> B) (l : list A) :
  sum_list_with f (map g l) = sum_list_with (f ∘ g) l.
Proof. induction l as [|x l IH]; cbn; [done|]. by rewrite IH. Qed.

Lemma sum_list_with_ext_in {A} (f g : A -> nat) (l : list A) :
  (forall x, x ∈ l -> f x = g x) -> sum_list_with f l = sum_list_with g l.
Proof.
  induction l as [|x l IH]; intros Hfg; cbn; [done|].
  rewrite (Hfg x) by apply list_elem_of_here.
  rewrite IH; [done|]. intros y Hy. apply Hfg. by apply list_elem_of_further.
Qed.

(** The chunks of a list cover it once. *)
Lemma chunk_lengths {A} (s : nat) : forall (m : nat) (l : list A),
  (0 < s)%nat -> (length l <= m * s)%nat ->
  sum_list_with (fun k => length (take s (drop (k * s) l))) (seq 0 m) = length l.
Proof.
  induction m as [|m IH]; intros l Hs Hl.
  - destruct l; [done|cbn in Hl; lia].
  - cbn [seq sum_list_with]. rewrite <- fmap_S_seq.
    change (S <$> seq 0 m) with (map S (seq 0 m)). rewrite sum_list_with_map.
    rewrite (sum_list_with_ext_in _ (fun k => length (take s (drop (k * s) (drop s l))))).
    + rewrite (IH (drop s l)) by (try rewrite length_drop; lia).
      cbn [Nat.mul drop]. rewrite length_take, !length_drop. lia.
    + intros k _. cbn [compose]. rewrite drop_drop. do 3 f_equal; lia.
Qed.

Lemma chunk_starts_cover n s : (0 < s)%nat -> (n <= (n + s - 1) / s * s)%nat.
Proof.
  intros Hs. pose proof (Nat.div_mod_eq (n + s - 1) s).
  pose proof (Nat.mod_upper_bound (n + s - 1) s). lia.
Qed.

Lemma chunk_starts_sum (books : list book) (s : nat) :
  (0 < s)%nat ->
  sum_list_with (fun i => length (take s (drop i books))) (chunk_starts (length books) s)
  = length books.
Proof.
  intros Hs. unfold chunk_starts. rewrite sum_list_with_map.
  apply (chunk_lengths s _ books Hs). by apply chunk_starts_cover.
Qed.

Lemma chunk_starts_ids (books : list book) (s : nat) (x : string) :
  (0 < s)%nat -> x ∈ derived_ids books 0 ->
  exists i, i ∈ chunk_starts (length books) s /\ x ∈ derived_ids (take s (drop i books)) i.
Proof.
  intros Hs. unfold derived_ids at 1. rewrite elem_of_lookup_imap.
  intros (j & b & -> & Hj).
  pose proof (lookup_lt_Some _ _ _ Hj) as Hlt.
  pose proof (chunk_starts_cover (length books) s Hs) as Hcover.
  pose proof (Nat.div_mod_eq j s) as Hdm.
  pose proof (Nat.mod_upper_bound j s ltac:(lia)) as Hmod.
  exists (j / s * s)%nat. split.
  - unfold chunk_starts. apply (list_elem_of_fmap_2 (fun k => k * s)%nat).
    apply elem_of_seq. split; [lia|]. cbn.
    apply Nat.Div0.div_lt_upper_bound. lia.
  - unfold derived_ids. rewrite elem_of_lookup_imap.
    exists (j mod s)%nat, b. split.
    + do 2 f_equal. lia.
    + rewrite lookup_take_lt by done. rewrite lookup_drop.
      rewrite <- Hj. f_equal. lia.
Qed.

Section Runs.

Variable E : Env.

Lemma http_same_stats r : preserves same_stats (http E r).
Proof.
  intros w res w'. unfold http, same_stats.
  destruct (fate_at E (tick w)); try (intros [= <- <-]; reflexivity);
    destruct (answer E (tick w) r (qdrant w)); intros [= <- <-]; reflexivity.
Qed.

Ltac same_stats_steps :=
  repeat first
    [ apply preserves_ret
    | apply preserves_raise
    | apply preserves_bind; [| |intros ?]
    | apply preserves_try_except; [| |intros ?]
    | apply preserves_if
    | apply preserves_when
    | apply http_same_stats
    | apply _ ].

Lemma check_collection_exists_same_stats c :
  preserves same_stats (check_collection_exists E c).
Proof. unfold check_collection_exists. same_stats_steps. Qed.

Lemma create_collection_same_stats c : preserves same_stats (create_collection E c).
Proof. unfold create_collection. same_stats_steps. Qed.

Lemma clear_collection_same_stats c : preserves same_stats (clear_collection E c).
Proof.
  unfold clear_collection. same_stats_steps.
  - unfold json_point_ids. destruct (json _); same_stats_steps.
  - destruct a0; same_stats_steps.
Qed.

Lemma setup_collections_same_stats cl : preserves same_stats (setup_collections E cl).
Proof.
  unfold setup_collections. generalize ["tags_vecs"; "desc_vecs"]%string as cs.
  induction cs as [|c cs IH]; cbn [setup_each]; same_stats_steps; try exact IH.
  - unfold json_point_ids. destruct (json _); same_stats_steps.
  - destruct a1; same_stats_steps.
Qed.

(** A run of import_books that returns [True] went through every step. *)
Lemma import_books_phases json_file batch_size clear_existing w wf :
  import_books E json_file batch_size clear_existing w = (Val true, wf) ->
  exists wa wb books starts wd we,
    check_services E w = (Val true, wa) /\
    setup_collections E clear_existing wa = (Val true, wb) /\
    files E json_file = Books books /\
    batch_starts (length books) batch_size
      (with_stats (start_run (length books) (wall wb)) wb)
      = (Val starts, with_stats (start_run (length books) (wall wb)) wb) /\
    import_batches E books (Z.to_nat batch_size) starts
      (with_stats (start_run (length books) (wall wb)) wb) = (Val tt, wd) /\
    print_final_report wd = (Val tt, we) /\
    verify_collections E we = (Val tt, wf).
Proof.
  unfold import_books, load_books. unfold mbind, M_bind, bind.
  destruct (check_services E w) as [[[|]|e] wa] eqn:Hcheck; try discriminate.
  cbn [negb].
  destruct (setup_collections E clear_existing wa) as [[[|]|e] wb] eqn:Hsetup;
    try discriminate.
  cbn [negb]. destruct (files E json_file) as [| |books] eqn:Hfile; try discriminate.
  unfold time_now, modify_stats. cbn beta iota.
  set (wc := with_stats (start_run (length books) (wall wb)) wb).
  destruct (batch_starts (length books) batch_size wc) as [rs wc'] eqn:Hstarts.
  destruct (batch_starts_run _ _ _ _ _ Hstarts) as (-> & _).
  destruct rs as [starts|e]; try discriminate.
  destruct (import_batches E books (Z.to_nat batch_size) starts wc) as [[[]|e] wd] eqn:Hloop;
    try discriminate.
  destruct (print_final_report wd) as [[[]|e] we] eqn:Hreport; try discriminate.
  destruct (verify_collections E we) as [[[]|e] wf'] eqn:Hverify; try discriminate.
  intros [= <-]. by exists wa, wb, books, starts, wd, we.
Qed.

(** A run without the clear-existing flag deletes nothing and writes only
    identifiers derived from the records of the input file. *)
Lemma import_books_grows json_file books batch_size :
  files E json_file = Books books ->
  preserves (grows (catalog_ids books)) (import_books E json_file batch_size false).
Proof.
  intros Hfile. unfold import_books, load_books. rewrite Hfile.
  assert (Hidle : forall A (m : M A), preserves (idle harmless) m ->
                    preserves (grows (catalog_ids books)) m).
  { intros A m. apply preserves_weaken. apply idle_grows. }
  apply preserves_bind; [apply _|apply Hidle, check_services_idle|intros services].
  apply preserves_if; [apply preserves_ret; apply _|].
  apply preserves_bind; [apply _|apply Hidle, setup_collections_idle|intros collections].
  apply preserves_if; [apply preserves_ret; apply _|].
  apply preserves_bind; [apply _| |intros t].
  { intros w r w' [= <- <-]. reflexivity. }
  apply preserves_bind; [apply _| |intros _].
  { intros w r w' [= <- <-]. apply (same_store_grows _ _ _ []); try done.
    by rewrite app_nil_r. }
  apply preserves_bind; [apply _| |intros starts].
  { intros w r w' Hrun. destruct (batch_starts_run _ _ _ _ _ Hrun) as (-> & _). reflexivity. }
  apply preserves_bind; [apply _| |intros _].
  { intros w r w' Hrun.
    destruct (import_batches_accounting E books (Z.to_nat batch_size) starts w)
      as (w0 & Hrun' & Hg & _).
    rewrite Hrun in Hrun'. by injection Hrun' as _ ->. }
  apply preserves_bind; [apply _|apply Hidle, print_final_report_idle|intros _].
  apply preserves_bind; [apply _|apply Hidle, verify_collections_idle|intros _].
  apply preserves_ret; apply _.
Qed.

End Runs.

Lemma point_count_ids c w w' : ids_in c w' = ids_in c w -> point_count c w' = point_count c w.
Proof. unfold point_count, ids_in. intros H. by rewrite <- !size_dom, H. Qed.

(** A run that reports every record as uploaded has put the identifier of
    every record into both collections. *)
Lemma full_run_stores_catalog (E : Env) json_file books batch_size clear_existing w0 w1 :
  files E json_file = Books books ->
  import_books E json_file batch_size clear_existing (new_importer w0) = (Val true, w1) ->
  successful_uploads (stats w1) = length books ->
  catalog_ids books ⊆ ids_in "tags_vecs" w1 ∩ ids_in "desc_vecs" w1.
Proof.
  intros Hfile Hrun Hall.
  destruct (import_books_phases E _ _ _ _ _ Hrun)
    as (wa & wb & books' & starts & wd & we & Hcheck & Hsetup & Hfile' & Hstarts
        & Hloop & Hreport & Hverify).
  rewrite Hfile in Hfile'. injection Hfile' as <-.
  set (wc := with_stats (start_run (length books) (wall wb)) wb) in *.
  assert (Hzero : successful_uploads (stats wc) = 0%nat).
  { cbn. rewrite (setup_collections_same_stats E _ _ _ _ Hsetup).
    by rewrite (idle_stats _ _ _ (check_services_idle E _ _ _ Hcheck)). }
  pose proof (print_final_report_idle _ _ _ Hreport) as Hidle1.
  pose proof (verify_collections_idle E _ _ _ Hverify) as Hidle2.
  assert (Hstats : stats w1 = stats wd).
  { by rewrite (idle_stats _ _ _ Hidle2), (idle_stats _ _ _ Hidle1). }
  assert (Hids : forall c, ids_in c w1 = ids_in c wd).
  { intros c. unfold ids_in.
    by rewrite (idle_store _ _ _ Hidle2), (idle_store _ _ _ Hidle1). }
  rewrite !Hids.
  destruct (import_batches_accounting E books (Z.to_nat batch_size) starts wc)
    as (wd' & Hloop' & _ & Hle & Heq).
  rewrite Hloop in Hloop'. injection Hloop' as <-.
  rewrite Hzero in Hle, Heq. rewrite <- Hstats, Hall in Hle, Heq. cbn in Hle, Heq.
  destruct (batch_starts_run _ _ _ _ _ Hstarts)
    as (_ & [(_ & ?)|[(_ & [= ->])|(Hpos & [= ->])]]); [done| |].
  - cbn in Hle. destruct books; [|cbn in Hle; lia].
    unfold catalog_ids. cbn. set_solver.
  - assert (Hs : (0 < Z.to_nat batch_size)%nat) by lia.
    specialize (Heq (eq_sym (chunk_starts_sum books _ Hs))).
    intros x Hx. unfold catalog_ids in Hx. apply elem_of_list_to_set in Hx.
    destruct (chunk_starts_ids books _ x Hs Hx) as (i & Hi & Hxi).
    apply (Heq i Hi). by apply elem_of_list_to_set.
Qed.

(** C7 (as the code has it).  Let a first run, by a new importer, return
    [True] with every record of the input file counted as uploaded.  Then a
    second run over the same file by a new importer, without the
    clear-existing flag and whatever the services do this time, leaves in
    tags_vecs and in desc_vecs exactly the identifiers, and so the number of
    points, that the first run left: what it writes goes to identifiers that
    are already there. *)
Theorem rerun_keeps_point_counts (E : Env) (json_file : string) (books : list book)
    (batch_size1 batch_size2 : Z) (clear_existing1 : bool) (w0 w1 : world) :
  files E json_file = Books books ->
  import_books E json_file batch_size1 clear_existing1 (new_importer w0) = (Val true, w1) ->
  successful_uploads (stats w1) = length books ->
  let w2 := (import_books E json_file batch_size2 false (new_importer w1)).2 in
  ids_in "tags_vecs" w2 = ids_in "tags_vecs" w1 /\
  ids_in "desc_vecs" w2 = ids_in "desc_vecs" w1 /\
  point_count "tags_vecs" w2 = point_count "tags_vecs" w1 /\
  point_count "desc_vecs" w2 = point_count "desc_vecs" w1.
Proof.
  intros Hfile Hrun Hall w2.
  pose proof (full_run_stores_catalog E _ _ _ _ _ _ Hfile Hrun Hall) as Hcat.
  assert (Hg : grows (catalog_ids books) (new_importer w1) w2).
  { subst w2.
    destruct (import_books E json_file batch_size2 false (new_importer w1)) as [r w2] eqn:H2.
    exact (import_books_grows E _ _ _ Hfile _ _ _ H2). }
  assert (Hsame : forall c, c = "tags_vecs"%string \/ c = "desc_vecs"%string ->
                    ids_in c w2 = ids_in c w1).
  { intros c Hc.
    pose proof (grows_keeps _ _ _ Hg c) as Hk.
    pose proof (grows_within _ _ _ Hg c) as Hw.
    change (ids_in c (new_importer w1)) with (ids_in c w1) in Hk, Hw.
    assert (catalog_ids books ⊆ ids_in c w1) by (destruct Hc as [-> | ->]; set_solver).
    set_solver. }
  split_and!; [apply Hsame | apply Hsame | apply point_count_ids, Hsame
              | apply point_count_ids, Hsame]; auto.
Qed.

(** Without the proviso on the first run the second run can add points. *)
Lemma second_run_can_add_points :
  let once := import_books flaky_then_fine "books.json" 10 false fresh in
  let twice := import_books flaky_then_fine "books.json" 10 false (new_importer once.2) in
  once.1 = Val true /\ twice.1 = Val true /\
  point_count "tags_vecs" once.2 = 0%nat /\ point_count "desc_vecs" once.2 = 0%nat /\
  point_count "tags_vecs" twice.2 = 1%nat /\ point_count "desc_vecs" twice.2 = 1%nat /\
  point_count "tags_vecs" twice.2 <> point_count "tags_vecs" once.2.
Proof. vm_compute. split_and!; try reflexivity. discriminate. Qed.

Lemma rerun_keeps_point_counts_witness :
  let once := import_books all_served "books.json" 10 false (new_importer fresh) in
  let w2 := (import_books all_served "books.json" 10 false (new_importer once.2)).2 in
  ids_in "tags_vecs" w2 = ids_in "tags_vecs" once.2 /\
  ids_in "desc_vecs" w2 = ids_in "desc_vecs" once.2 /\
  point_count "tags_vecs" w2 = point_count "tags_vecs" once.2 /\
  point_count "desc_vecs" w2 = point_count "desc_vecs" once.2.
Proof.
  intros once.
  apply (rerun_keeps_point_counts all_served "books.json" [dune; emma] 10 10 false fresh once.2).
  - reflexivity.
  - vm_compute. reflexivity.
  - vm_compute. reflexivity.
Defined.

(** ** A rejected upsert *)

(** C6 (what the code does).  After the refused upsert the run goes on to
    the second batch and completes, and the refused batch adds nothing to
    the success count; but nothing counts the refusal: the final report
    shows 2 records in total, 1 processed, 1 uploaded and 0 failed. *)
Theorem rejected_upsert_is_not_counted :
  let run := import_books tags_refused "books.json" 1 false fresh in
  run.1 = Val true /\
  List.filter is_printed (trace run.2) =
    [Printed TagsUploadFailed; Printed (Progress 2 2 4);
     Printed (FinalReport 2 1 1 0 4); Printed (SuccessRate 1 1);
     Printed (Verified "tags_vecs" 1 1); Printed (Verified "desc_vecs" 1 1)] /\
  successful_uploads (stats run.2) = 1%nat /\
  failed_uploads (stats run.2) = 0%nat.
Proof. vm_compute. split_and!; reflexivity. Qed.

(** The two counters that the loop body owns stay put when the first
    upsert is rejected, and the failure counter keeps the value that
    process_batch gave it. *)
Lemma rejected_tags_upsert_leaves_counters (E : Env) books bs i w w1 w2 tps dps n :
  process_batch E (take bs (drop i books)) i w = (Val (tps, dps, n), w1) ->
  tps <> [] ->
  upsert_to_qdrant E "tags_vecs" tps w1 = (Val false, w2) ->
  import_batch E books bs i w = (Val tt, emit (Printed TagsUploadFailed) w2) /\
  stats w2 = stats w1 /\
  successful_uploads (stats w2) = successful_uploads (stats w) /\
  processed_books (stats w2) = processed_books (stats w).
Proof.
  intros Hbatch Htps Htags.
  destruct (process_batch_run E (take bs (drop i books)) i w)
    as (tps' & dps' & n' & w1' & Hrun & _ & Hlt & Hld & _ & _ & _ & Hq & _).
  rewrite Hbatch in Hrun. injection Hrun as <- <- <- <-.
  assert (Hdps : dps <> []).
  { intros ->. destruct tps; [done|]. cbn in Hlt, Hld. lia. }
  destruct (upsert_to_qdrant_any E _ _ _ _ _ Htags) as (_ & Hs2 & _).
  split_and!.
  - rewrite import_batch_run, Hbatch.
    rewrite (bool_decide_eq_false_2 (tps = [])), (bool_decide_eq_false_2 (dps = [])) by done.
    cbn [orb]. by rewrite Htags.
  - exact Hs2.
  - by rewrite Hs2, (quiet_successful _ _ Hq).
  - by rewrite Hs2, (quiet_processed _ _ Hq).
Qed.

(** ** Clearing a collection *)

Lemma delete_points_cons i ids (m : gmap string point) :
  delete_points (i :: ids) m = delete_points ids (delete i m).
Proof. reflexivity. Qed.

Lemma size_delete_points ids : forall m : gmap string point,
  NoDup ids -> (forall i, i ∈ ids -> is_Some (m !! i)) ->
  size (delete_points ids m) = (size m - length ids)%nat.
Proof.
  induction ids as [|i ids IH]; intros m Hnd Hin.
  - unfold delete_points. cbn. lia.
  - rewrite delete_points_cons. apply NoDup_cons in Hnd as [Hi Hnd].
    rewrite IH; [|done|].
    + rewrite map_size_delete_Some by (apply Hin; apply list_elem_of_here). cbn. lia.
    + intros j Hj. rewrite lookup_delete_ne by (intros ->; done).
      apply Hin. by apply list_elem_of_further.
Qed.

Lemma size_after_first_page limit (m : gmap string point) :
  size (delete_points (first_page limit m) m) = (size m - N.to_nat limit)%nat.
Proof.
  unfold first_page. rewrite size_delete_points.
  - rewrite length_take, length_fmap, length_map_to_list. lia.
  - eapply sublist_NoDup; [apply (NoDup_fst_map_to_list m)|apply sublist_take].
  - intros i Hi. apply (subseteq_take _ _ i) in Hi.
    apply list_elem_of_fmap in Hi as ([i' p] & -> & Hp).
    apply elem_of_map_to_list in Hp. by exists p.
Qed.

(** clear_collection with both of its requests served: it asks for one page
    of at most 10000 identifiers, deletes those, and reports success. *)
Lemma clear_collection_served (E : Env) c w (m : gmap string point) :
  qdrant w !! c = Some m ->
  fate_at E (tick w) = Served -> fate_at E (S (tick w)) = Served ->
  exists w', clear_collection E c w = (Val true, w') /\
    collection c w' = delete_points (first_page 10000 m) m /\
    point_count c w' = (size m - N.to_nat 10000)%nat /\
    trace w' = trace w ++ Sent (PostScroll c 10000)
                 :: match first_page 10000 m with
                    | [] => []
                    | ids => [Sent (PostDelete c ids)]
                    end.
Proof.
  intros Hc Hscroll Hdelete.
  unfold clear_collection, http. unfold_M. rewrite Hscroll. cbn [answer]. rewrite Hc.
  cbn. fold (first_page 10000 m).
  pose proof (size_after_first_page 10000 m) as Hsize.
  destruct (first_page 10000 m) as [|i ids] eqn:Hpage.
  - eexists. split; [reflexivity|]. unfold point_count, collection. cbn. rewrite Hc. cbn.
    split_and!; try done.
  - cbn. rewrite Hdelete. cbn [answer]. cbn. rewrite Hc. cbn.
    eexists. split; [reflexivity|]. unfold point_count, collection. cbn.
    rewrite lookup_insert_eq. cbn. split_and!; try done.
    by rewrite <- app_assoc.
Qed.

(** clear_collection never raises, and it reports success only when the
    scroll request was served by an existing collection and, unless the page
    came back empty, the delete request was served too. *)
Lemma clear_collection_success (E : Env) c w r w' :
  clear_collection E c w = (r, w') ->
  (exists ok, r = Val ok) /\
  (r = Val true ->
   fate_at E (tick w) = Served /\
   exists m, qdrant w !! c = Some m /\
     (first_page 10000 m = [] /\ trace w' = trace w ++ [Sent (PostScroll c 10000)]
      \/ fate_at E (S (tick w)) = Served)).
Proof.
  unfold clear_collection, http. unfold_M.
  destruct (fate_at E (tick w)) as [|code| |] eqn:Hscroll; cbn [answer].
  - destruct (qdrant w !! c) as [m|] eqn:Hc; cbn.
    + fold (first_page 10000 m).
      destruct (first_page 10000 m) as [|i ids] eqn:Hpage.
      { intros [= <- <-]. split; [by eexists|]. intros _. split; [done|].
        exists m. split; [done|]. left. done. }
      cbn. destruct (fate_at E (S (tick w))) as [|code| |] eqn:Hdel; cbn [answer]; cbn;
        rewrite ?Hc; cbn; rewrite ?error_is_not_ok;
        intros [= <- <-]; (split; [by eexists|]); try discriminate.
      intros _. split; [done|]. exists m. split; [done|]. by right.
    + intros [= <- <-]. split; [by eexists|]. discriminate.
  - cbn. destruct (code =? 200); cbn; intros [= <- <-]; (split; [by eexists|]); discriminate.
  - cbn. intros [= <- <-]. split; [by eexists|]. discriminate.
  - destruct (qdrant w !! c); cbn;
      intros [= <- <-]; (split; [by eexists|]); discriminate.
Qed.

(** C5 (what the code does).  On a collection of 10001 points, with both
    requests served, clear_collection reports success and one point is
    still there. *)
Theorem clear_collection_stops_at_one_page :
  let run := clear_collection all_served "tags_vecs" crowded in
  point_count "tags_vecs" crowded = N.to_nat 10001 /\
  run.1 = Val true /\
  point_count "tags_vecs" run.2 = 1%nat.
Proof. vm_compute. split_and!; reflexivity. Qed.

(** * Further properties of the importer *)

(** ** Service check *)

(** X1.  check_services never raises and writes nothing.  It asks Ollama only
    when the reply of Qdrant has status 200 (it does not read that reply's
    body), and it returns [True] exactly when, in addition, the Ollama
    request is served and the embedding model is among the advertised
    names. *)
Theorem check_services_result (E : Env) (w : world) :
  exists (b : bool) (w' : world),
    check_services E w = (Val b, w') /\
    stats w' = stats w /\ qdrant w' = qdrant w /\
    (b = true <->
       replies_200 (fate_at E (tick w)) = true /\
       fate_at E (S (tick w)) = Served /\
       EMBEDDING_MODEL ∈ models E) /\
    trace w' = trace w ++
      Sent GetCollections ::
      (if replies_200 (fate_at E (tick w)) then [Sent GetTags] else []).
Proof.
  unfold check_services, http. unfold_M.
  destruct (fate_at E (tick w)) as [|code| |] eqn:Hq; cbn.
  all: try (destruct (code =? 200) eqn:Hcode; cbn).
  all: try (destruct (fate_at E (S (tick w))) as [|code'| |] eqn:Ho; cbn).
  all: try (destruct (code' =? 200) eqn:Hcode'; cbn).
  all: try (destruct (bool_decide (EMBEDDING_MODEL ∈ models E)) eqn:Hm; cbn).
  all: eexists _, _; (split; [reflexivity|]); cbn.
  all: try apply bool_decide_eq_true in Hm; try apply bool_decide_eq_false in Hm.
  all: split_and!; try done.
  all: try (by rewrite <- app_assoc).
  all: try (split; [discriminate|intros (? & ? & ?); done]).
Qed.

(** ** Setting up the collections *)

(** check_collection_exists never raises and changes nothing; it answers
    [True] when the reply has status 200, that is for a served request on a
    collection that exists. *)
Lemma check_collection_exists_result (E : Env) (c : string) (w : world) :
  exists (b : bool),
    check_collection_exists E c w = (Val b, sent (GetCollection c) w) /\
    (b = true <->
       fate_at E (tick w) = Served /\ is_Some (qdrant w !! c)
       \/ fate_at E (tick w) = Refused 200) /\
    (fate_at E (tick w) = Lost -> b = false).
Proof.
  unfold check_collection_exists, http, sent. unfold_M. cbn [answer].
  destruct (fate_at E (tick w)) as [|code| |] eqn:Hfate.
  - destruct (qdrant w !! c) as [m|] eqn:Hc; cbn; eexists; (split; [reflexivity|]).
    + split; [|done]. split; [intros _; left; eauto|done].
    + split; [|done]. split; [done|]. intros [[_ [? ?]]|?]; done.
  - cbn. eexists. split; [reflexivity|]. split; [|done].
    destruct (Z.eqb_spec code 200) as [->|Hne].
    + split; [auto|done].
    + split; [done|]. intros [[? _]|[= ?]]; done.
  - cbn. eexists. split; [reflexivity|]. split; [|done].
    split; [done|]. intros [[? _]|?]; done.
  - destruct (qdrant w !! c); cbn; eexists; (split; [reflexivity|]); (split; [|done]);
      (split; [done|]); intros [[? _]|?]; done.
Qed.

(** X2.  create_collection never raises.  It answers [True] exactly when its
    request is served and the collection did not exist, and then the
    collection exists and is empty; a collection that exists keeps its
    points whatever the reply. *)
Theorem create_collection_result (E : Env) (c : string) (w : world) :
  exists (b : bool) (w' : world),
    create_collection E c w = (Val b, w') /\
    stats w' = stats w /\
    trace w' = trace w ++ [Sent (PutCollection c VECTOR_SIZE DISTANCE_METRIC)] /\
    (b = true <-> fate_at E (tick w) = Served /\ qdrant w !! c = None) /\
    (b = true -> qdrant w' = <[c := ∅]> (qdrant w)) /\
    (forall c' m, qdrant w !! c' = Some m -> qdrant w' !! c' = Some m).
Proof.
  unfold create_collection, http. unfold_M. cbn [answer].
  destruct (fate_at E (tick w)) as [|code| |] eqn:Hfate.
  - destruct (qdrant w !! c) as [m|] eqn:Hc; cbn;
      eexists _, _; (split; [reflexivity|]); cbn; split_and!; try done.
    + split; [done|]. intros [_ ?]; done.
    + intros c' m Hc'. rewrite lookup_insert_ne; [done|]. intros ->. congruence.
  - cbn. rewrite error_is_not_ok.
    eexists _, _; (split; [reflexivity|]); cbn; split_and!; try done.
    split; [done|]. intros [? _]; done.
  - cbn. eexists _, _; (split; [reflexivity|]); cbn; split_and!; try done.
    split; [done|]. intros [? _]; done.
  - destruct (qdrant w !! c) as [m|] eqn:Hc; cbn;
      eexists _, _; (split; [reflexivity|]); cbn; split_and!; try done.
    + split; [done|]. intros [? _]; done.
    + split; [done|]. intros [? _]; done.
    + intros c' m Hc'. rewrite lookup_insert_ne; [done|]. intros ->. congruence.
Qed.

Section SetupServed.

Variable E : Env.

Lemma check_collection_exists_served c w :
  fate_at E (tick w) = Served ->
  check_collection_exists E c w
  = (Val (bool_decide (is_Some (qdrant w !! c))), sent (GetCollection c) w).
Proof.
  intros Hfate. unfold check_collection_exists, http, sent. unfold_M. cbn [answer].
  rewrite Hfate. destruct (qdrant w !! c) as [m|] eqn:Hc; reflexivity.
Qed.

Lemma create_collection_served c w :
  fate_at E (tick w) = Served -> qdrant w !! c = None ->
  create_collection E c w
  = (Val true, with_qdrant (<[c := ∅]> (qdrant w))
                 (sent (PutCollection c VECTOR_SIZE DISTANCE_METRIC) w)).
Proof.
  intros Hfate Hc. unfold create_collection, http, sent. unfold_M. cbn [answer].
  by rewrite Hfate, Hc.
Qed.

(** The world that clear_collection leaves when its requests are served. *)
Lemma clear_collection_served_world c w (m : gmap string point) :
  qdrant w !! c = Some m ->
  fate_at E (tick w) = Served -> fate_at E (S (tick w)) = Served ->
  exists w', clear_collection E c w = (Val true, w') /\
    stats w' = stats w /\
    (tick w < tick w' <= tick w + 2)%nat /\
    qdrant w' = <[c := delete_points (first_page 10000 m) m]> (qdrant w).
Proof.
  intros Hc Hscroll Hdelete.
  unfold clear_collection, http. unfold_M. rewrite Hscroll. cbn [answer]. rewrite Hc.
  cbn. fold (first_page 10000 m).
  destruct (first_page 10000 m) as [|i ids] eqn:Hpage.
  - eexists. split; [reflexivity|]. cbn. split_and!; try done; try lia.
    unfold delete_points. cbn. by rewrite insert_id.
  - cbn. rewrite Hdelete. cbn [answer]. cbn. rewrite Hc. cbn.
    eexists. split; [reflexivity|]. cbn. split_and!; try done; lia.
Qed.

Lemma setup_each_served clear_existing cs : forall w,
  (forall n, (tick w <= n)%nat -> fate_at E n = Served) ->
  exists w', setup_each E clear_existing cs w = (Val true, w') /\
    stats w' = stats w /\ (tick w <= tick w')%nat /\
    qdrant w' = foldl (fun q c => set_up clear_existing c q) (qdrant w) cs.
Proof.
  induction cs as [|c cs IH]; intros w Hserved.
  - exists w. cbn. split_and!; done.
  - cbn [setup_each foldl]. unfold mbind, M_bind, bind.
    rewrite check_collection_exists_served by (apply Hserved; lia).
    set (w1 := sent (GetCollection c) w).
    assert (Hserved1 : forall n, (tick w1 <= n)%nat -> fate_at E n = Served).
    { intros n Hn. apply Hserved. cbn in Hn. lia. }
    unfold set_up at 2.
    destruct (qdrant w !! c) as [m|] eqn:Hc.
    + rewrite bool_decide_eq_true_2 by done.
      destruct clear_existing.
      * destruct (clear_collection_served_world c w1 m Hc)
          as (w2 & -> & Hs2 & Ht2 & Hq2); try (apply Hserved1; lia).
        cbn [negb].
        destruct (IH w2) as (w' & -> & Hs & Ht & Hq).
        { intros n Hn. apply Hserved1. lia. }
        exists w'. split_and!; [done|by rewrite Hs, Hs2| cbn in Ht2; lia|by rewrite Hq, Hq2].
      * cbn.
        destruct (IH w1 Hserved1) as (w' & -> & Hs & Ht & Hq).
        exists w'. split_and!; [done|by rewrite Hs|cbn in Ht; lia|by rewrite Hq].
    + rewrite bool_decide_eq_false_2 by (by intros [? ?]).
      rewrite create_collection_served by (try apply Hserved1; done).
      cbn [negb].
      set (w2 := with_qdrant _ _).
      destruct (IH w2) as (w' & -> & Hs & Ht & Hq).
      { intros n Hn. apply Hserved1. cbn in Hn. cbn. lia. }
      exists w'. split_and!; [done|by rewrite Hs|cbn in Ht; lia|by rewrite Hq].
Qed.

End SetupServed.

Lemma collection_set_up cl c c' (q : gmap string (gmap string point)) :
  default ∅ (set_up cl c q !! c') =
  if cl && bool_decide (c' = c)
  then delete_points (first_page 10000 (default ∅ (q !! c'))) (default ∅ (q !! c'))
  else default ∅ (q !! c').
Proof.
  unfold set_up. destruct (decide (c' = c)) as [->|Hne].
  - rewrite bool_decide_eq_true_2 by done. rewrite andb_true_r.
    destruct (q !! c) as [m|] eqn:Hc; destruct cl; cbn;
      rewrite ?lookup_insert_eq, ?Hc; reflexivity.
  - rewrite bool_decide_eq_false_2 by done. rewrite andb_false_r.
    destruct (q !! c) as [m|] eqn:Hc; destruct cl; cbn;
      rewrite ?lookup_insert_ne by done; reflexivity.
Qed.

Lemma set_up_exists cl c c' (q : gmap string (gmap string point)) :
  c' = c \/ is_Some (q !! c') -> is_Some (set_up cl c q !! c').
Proof.
  unfold set_up. intros Hc'.
  destruct (q !! c) as [m|] eqn:Hc; [destruct cl|].
  - destruct (decide (c' = c)) as [->|Hne];
      [rewrite lookup_insert_eq; eauto|rewrite lookup_insert_ne by done].
    destruct Hc' as [?|?]; done.
  - destruct Hc' as [->|?]; [by rewrite Hc|done].
  - destruct (decide (c' = c)) as [->|Hne];
      [rewrite lookup_insert_eq; eauto|rewrite lookup_insert_ne by done].
    destruct Hc' as [?|?]; done.
Qed.

(** X3.  With every request served, setup_collections succeeds and both
    collections exist afterwards.  Without the clear-existing flag a
    collection that existed keeps its points; with the flag each of the two
    loses the first page of at most 10000 identifiers.  No other collection
    and no statistic is touched. *)
Theorem setup_collections_served (E : Env) (clear_existing : bool) (w : world) :
  (forall n, (tick w <= n)%nat -> fate_at E n = Served) ->
  exists w', setup_collections E clear_existing w = (Val true, w') /\
    stats w' = stats w /\
    is_Some (qdrant w' !! "tags_vecs") /\ is_Some (qdrant w' !! "desc_vecs") /\
    (forall c,
       collection c w' =
       if clear_existing && bool_decide (c ∈ ["tags_vecs"; "desc_vecs"]%string)
       then delete_points (first_page 10000 (collection c w)) (collection c w)
       else collection c w) /\
    (forall c, c ∈ ["tags_vecs"; "desc_vecs"]%string ->
       point_count c w' =
       if clear_existing then (point_count c w - N.to_nat 10000)%nat else point_count c w).
Proof.
  intros Hserved. unfold setup_collections.
  destruct (setup_each_served E clear_existing ["tags_vecs"; "desc_vecs"]%string w Hserved)
    as (w' & Hrun & Hstats & _ & Hq).
  cbn [foldl] in Hq.
  assert (Hcol : forall c,
       collection c w' =
       if clear_existing && bool_decide (c ∈ ["tags_vecs"; "desc_vecs"]%string)
       then delete_points (first_page 10000 (collection c w)) (collection c w)
       else collection c w).
  { intros c. unfold collection. rewrite Hq, !collection_set_up.
    destruct clear_existing; [|done]. cbn [andb].
    destruct (decide (c = "desc_vecs"%string)) as [->|Hd].
    { rewrite bool_decide_eq_true_2 by done.
      rewrite (bool_decide_eq_false_2 ("desc_vecs"%string = "tags_vecs"%string)) by done.
      by rewrite bool_decide_eq_true_2 by set_solver. }
    rewrite (bool_decide_eq_false_2 (c = "desc_vecs"%string)) by done.
    destruct (decide (c = "tags_vecs"%string)) as [->|Ht].
    { rewrite bool_decide_eq_true_2 by done. by rewrite bool_decide_eq_true_2 by set_solver. }
    rewrite (bool_decide_eq_false_2 (c = "tags_vecs"%string)) by done.
    by rewrite bool_decide_eq_false_2 by set_solver. }
  exists w'. split_and!; try done.
  - rewrite Hq. apply set_up_exists. right. apply set_up_exists. by left.
  - rewrite Hq. apply set_up_exists. by left.
  - intros c Hc. unfold point_count. rewrite Hcol.
    rewrite (bool_decide_eq_true_2 _ Hc), andb_true_r.
    destruct clear_existing; [|done]. apply size_after_first_page.
Qed.

Lemma setup_collections_served_witness :
  exists w', setup_collections all_served true crowded = (Val true, w') /\
    stats w' = stats crowded /\
    is_Some (qdrant w' !! "tags_vecs") /\ is_Some (qdrant w' !! "desc_vecs") /\
    (forall c,
       collection c w' =
       if true && bool_decide (c ∈ ["tags_vecs"; "desc_vecs"]%string)
       then delete_points (first_page 10000 (collection c crowded)) (collection c crowded)
       else collection c crowded) /\
    (forall c, c ∈ ["tags_vecs"; "desc_vecs"]%string ->
       point_count c w' =
       if true then (point_count c crowded - N.to_nat 10000)%nat else point_count c crowded).
Proof.
  apply (setup_collections_served all_served true crowded).
  intros n _. unfold all_served, scripted. cbn. by destruct n.
Defined.

(** ** Verification *)


(** X4.  With both requests served and both collections present,
    verify_collections prints the point count of each. *)
Theorem verify_collections_reports_counts (E : Env) (w : world) :
  fate_at E (tick w) = Served -> fate_at E (S (tick w)) = Served ->
  is_Some (qdrant w !! "tags_vecs") -> is_Some (qdrant w !! "desc_vecs") ->
  trace (verify_collections E w).2 =
  trace w ++
    [Sent (GetCollection "tags_vecs");
     Printed (Verified "tags_vecs" (point_count "tags_vecs" w) (point_count "tags_vecs" w));
     Sent (GetCollection "desc_vecs");
     Printed (Verified "desc_vecs" (point_count "desc_vecs" w) (point_count "desc_vecs" w))].
Proof.
  intros H1 H2 [m1 Hc1] [m2 Hc2].
  unfold verify_collections, verify_each, http, json_points_count, point_count, collection.
  unfold_M. cbn [answer]. rewrite H1, Hc1. cbn. rewrite H2, Hc2. cbn.
  by rewrite <- !app_assoc.
Qed.

Lemma verify_collections_reports_counts_witness :
  trace (verify_collections all_served fresh).2 =
  trace fresh ++
    [Sent (GetCollection "tags_vecs");
     Printed (Verified "tags_vecs" (point_count "tags_vecs" fresh) (point_count "tags_vecs" fresh));
     Sent (GetCollection "desc_vecs");
     Printed (Verified "desc_vecs" (point_count "desc_vecs" fresh) (point_count "desc_vecs" fresh))].
Proof.
  apply (verify_collections_reports_counts all_served fresh);
    [reflexivity | reflexivity | by eexists | by eexists].
Defined.

(** X5.  One [try] wraps the loop over both collections: when the request about
    tags_vecs raises, or its reply has status 200 and no point count,
    verification ends with one line and desc_vecs is not asked about. *)
Theorem verify_collections_stops_at_exception (E : Env) (w : world) :
  fate_at E (tick w) = Lost \/ fate_at E (tick w) = Unacknowledged
  \/ fate_at E (tick w) = Refused 200 ->
  trace (verify_collections E w).2 =
  trace w ++ [Sent (GetCollection "tags_vecs"); Printed VerifyException].
Proof.
  intros Hfate.
  unfold verify_collections, verify_each, http, json_points_count. unfold_M. cbn [answer].
  destruct Hfate as [-> | [-> | ->]]; cbn.
  - by rewrite <- app_assoc.
  - destruct (qdrant w !! "tags_vecs"); cbn; by rewrite <- app_assoc.
  - by rewrite <- app_assoc.
Qed.

Lemma verify_collections_stops_at_exception_witness :
  trace (verify_collections verify_lost fresh).2 =
  trace fresh ++ [Sent (GetCollection "tags_vecs"); Printed VerifyException].
Proof.
  apply (verify_collections_stops_at_exception verify_lost fresh). left. reflexivity.
Defined.

(** ** Edge cases of import_books *)

#[local] Instance prelude_preorder : PreOrder prelude.
Proof.
  split.
  - intros w. split; [done|]. exists []. by rewrite app_nil_r.
  - intros w1 w2 w3 [Hs1 (e1 & Ht1 & ?)] [Hs2 (e2 & Ht2 & ?)].
    split; [congruence|].
    exists (e1 ++ e2). split; [|by apply Forall_app]. by rewrite Ht2, Ht1, app_assoc.
Qed.

Section EdgeCases.

Variable E : Env.

Lemma http_prelude r : imports_nothing (Sent r) -> preserves prelude (http E r).
Proof.
  intros Hr w res w' Hrun. split.
  - exact (http_same_stats E r _ _ _ Hrun).
  - exists [Sent r]. split; [|by repeat constructor].
    revert Hrun. unfold http.
    destruct (fate_at E (tick w)); try (by intros [= <- <-]);
      destruct (answer E (tick w) r (qdrant w)); by intros [= <- <-].
Qed.

Ltac prelude_steps :=
  repeat first
    [ apply preserves_ret
    | apply preserves_raise
    | apply preserves_bind; [| |intros ?]
    | apply preserves_try_except; [| |intros ?]
    | apply preserves_if
    | apply preserves_when
    | apply http_prelude; exact I
    | apply _ ].

Lemma check_services_prelude : preserves prelude (check_services E).
Proof. unfold check_services. prelude_steps. Qed.

Lemma setup_collections_prelude cl : preserves prelude (setup_collections E cl).
Proof.
  unfold setup_collections. generalize ["tags_vecs"; "desc_vecs"]%string as cs.
  induction cs as [|c cs IH]; cbn [setup_each]; prelude_steps; try exact IH.
  - unfold json_point_ids. destruct (json _); prelude_steps.
  - destruct a1; prelude_steps.
Qed.



(** import_books returns [False] only from one of its three early exits. *)
Lemma import_books_false json_file batch_size clear_existing w w' :
  import_books E json_file batch_size clear_existing w = (Val false, w') ->
  check_services E w = (Val false, w') \/
  exists wa, check_services E w = (Val true, wa) /\
    (setup_collections E clear_existing wa = (Val false, w') \/
     setup_collections E clear_existing wa = (Val true, w') /\
     load_books E json_file = None).
Proof.
  intros Hrun. unfold import_books in Hrun. unfold mbind, M_bind, bind in Hrun.
  destruct (check_services E w) as [[[|]|e] wa] eqn:Hcheck; try discriminate.
  2: { cbn in Hrun. injection Hrun as <-. by left. }
  cbn [negb] in Hrun. right. exists wa. split; [done|].
  destruct (setup_collections E clear_existing wa) as [[[|]|e] wb] eqn:Hsetup;
    try discriminate.
  2: { cbn in Hrun. injection Hrun as <-. by left. }
  cbn [negb] in Hrun. destruct (load_books E json_file) as [books|] eqn:Hload.
  2: { cbn in Hrun. injection Hrun as <-. right. done. }
  unfold time_now, modify_stats in Hrun. cbn beta iota in Hrun.
  destruct (batch_starts (length books) batch_size _) as [[starts|e] wc'];
    try discriminate.
  destruct (import_batches_accounting E books (Z.to_nat batch_size) starts wc')
    as (wd & Hloop & _).
  rewrite Hloop in Hrun.
  destruct (print_final_report wd) as [[[]|e] we]; try discriminate.
  destruct (verify_collections E we) as [[[]|e] wf]; discriminate.
Qed.

End EdgeCases.

(** X6.  When import_books returns [False] the import has not started: the
    statistics are untouched (no start time, hence no report), and no
    embedding request and no upsert has been sent. *)
Theorem import_books_false_imports_nothing (E : Env) (json_file : string)
    (batch_size : Z) (clear_existing : bool) (w w' : world) :
  import_books E json_file batch_size clear_existing w = (Val false, w') ->
  stats w' = stats w /\
  exists evs, trace w' = trace w ++ evs /\ Forall imports_nothing evs.
Proof.
  intros Hrun.
  assert (prelude w w') as [Hs Ht]; [|done].
  destruct (import_books_false E _ _ _ _ _ Hrun)
    as [Hcheck|(wa & Hcheck & [Hsetup|[Hsetup _]])].
  - exact (check_services_prelude E _ _ _ Hcheck).
  - etrans; [exact (check_services_prelude E _ _ _ Hcheck)|].
    exact (setup_collections_prelude E _ _ _ _ Hsetup).
  - etrans; [exact (check_services_prelude E _ _ _ Hcheck)|].
    exact (setup_collections_prelude E _ _ _ _ Hsetup).
Qed.

Lemma import_books_false_imports_nothing_witness :
  let w' := (import_books qdrant_down "books.json" 10 true fresh).2 in
  stats w' = stats fresh /\
  exists evs, trace w' = trace fresh ++ evs /\ Forall imports_nothing evs.
Proof.
  apply (import_books_false_imports_nothing qdrant_down "books.json" 10 true fresh).
  vm_compute. reflexivity.
Defined.

(** X7.  A batch size of zero makes the [range] of the batch loop raise
    ValueError outside every [try]: import_books raises after the
    collections were set up and the run was started, and before any record
    is processed. *)
Theorem import_books_zero_batch_size (E : Env) (json_file : string)
    (clear_existing : bool) (w wa wb : world) (books : list book) :
  check_services E w = (Val true, wa) ->
  setup_collections E clear_existing wa = (Val true, wb) ->
  files E json_file = Books books ->
  import_books E json_file 0 clear_existing w
  = (Exc ValueError, with_stats (start_run (length books) (wall wb)) wb).
Proof.
  intros Hcheck Hsetup Hfile.
  unfold import_books, load_books. unfold mbind, M_bind, bind.
  rewrite Hcheck. lazy beta iota. cbn [negb].
  rewrite Hsetup. lazy beta iota. cbn [negb].
  by rewrite Hfile.
Qed.

Lemma import_books_zero_batch_size_witness :
  exists wb,
    import_books all_served "books.json" 0 false fresh
    = (Exc ValueError, with_stats (start_run (length [dune; emma]) (wall wb)) wb).
Proof.
  eexists.
  eapply (import_books_zero_batch_size all_served "books.json" false fresh).
  - vm_compute. reflexivity.
  - vm_compute. reflexivity.
  - reflexivity.
Defined.



(** ** Batching *)

Lemma chunk_concat {A} (s : nat) : forall (m : nat) (l : list A),
  (0 < s)%nat -> (length l <= m * s)%nat ->
  concat (map (fun k => take s (drop (k * s) l)) (seq 0 m)) = l.
Proof.
  induction m as [|m IH]; intros l Hs Hl.
  - destruct l; [done|cbn in Hl; lia].
  - cbn [seq map concat]. rewrite <- fmap_S_seq.
    change (S <$> seq 0 m) with (map S (seq 0 m)). rewrite map_map.
    rewrite (map_ext _ (fun k => take s (drop (k * s) (drop s l)))).
    + rewrite (IH (drop s l)) by (try rewrite length_drop; lia).
      cbn [Nat.mul drop]. apply take_drop.
    + intros k. rewrite drop_drop. do 2 f_equal; lia.
Qed.

(** X9.  For a positive batch size the batch loop cuts the input into
    ceil(n / batch_size) consecutive batches: put end to end, in the order
    of the loop, they are the input; none is empty, none is longer than the
    batch size, and all but the last are full. *)
Theorem batches_partition_input (books : list book) (batch_size : Z) (w : world) :
  0 < batch_size ->
  let bs := Z.to_nat batch_size in
  exists starts,
    batch_starts (length books) batch_size w = (Val starts, w) /\
    concat ((fun i => take bs (drop i books)) <$> starts) = books /\
    length starts = ((length books + bs - 1) / bs)%nat /\
    Forall (fun i => (0 < length (take bs (drop i books)) <= bs)%nat) starts /\
    (forall k i, starts !! k = Some i -> (S k < length starts)%nat ->
       length (take bs (drop i books)) = bs) /\
    (forall k i, starts !! k = Some i -> i = (k * bs)%nat).
Proof.
  intros Hpos bs.
  assert (Hbs : (0 < bs)%nat) by (subst bs; lia).
  exists (chunk_starts (length books) bs).
  pose proof (chunk_starts_cover (length books) bs Hbs) as Hcover.
  set (m := ((length books + bs - 1) / bs)%nat) in *.
  assert (Hm : (m * bs < length books + bs)%nat).
  { subst m. pose proof (Nat.div_mod_eq (length books + bs - 1) bs).
    pose proof (Nat.mod_upper_bound (length books + bs - 1) bs). lia. }
  assert (Hlookup : forall k i, chunk_starts (length books) bs !! k = Some i ->
            i = (k * bs)%nat /\ (k < m)%nat).
  { intros k i Hk. unfold chunk_starts in Hk. fold m in Hk.
    rewrite list_lookup_fmap in Hk.
    destruct (seq 0 m !! k) as [k'|] eqn:Hseq; [|done].
    apply lookup_seq in Hseq as [-> ?]. cbn in Hk. injection Hk as <-. done. }
  split_and!.
  - destruct (batch_starts (length books) batch_size w) as [r w'] eqn:Hrun.
    destruct (batch_starts_run _ _ _ _ _ Hrun) as (-> & [(? & _)|[(? & _)|(_ & ->)]]);
      first [lia|done].
  - unfold chunk_starts. change (fmap ?f ?l) with (map f l). rewrite map_map.
    by apply chunk_concat.
  - unfold chunk_starts. by rewrite length_map, length_seq.
  - apply Forall_forall. intros i Hi. apply list_elem_of_lookup in Hi as (k & Hk).
    destruct (Hlookup k i Hk) as (-> & Hkm).
    rewrite length_take, length_drop. split; [|lia].
    assert (S k * bs <= m * bs)%nat by (apply Nat.mul_le_mono_r; lia). lia.
  - intros k i Hk Hlast. destruct (Hlookup k i Hk) as (-> & Hkm).
    assert (length (chunk_starts (length books) bs) = m) as Hlen
      by (unfold chunk_starts; by rewrite length_map, length_seq).
    rewrite Hlen in Hlast.
    rewrite length_take, length_drop.
    assert (S (S k) * bs <= m * bs)%nat by (apply Nat.mul_le_mono_r; lia). lia.
  - intros k i Hk. by destruct (Hlookup k i Hk).
Qed.

Lemma batches_partition_input_witness :
  exists starts,
    batch_starts (length [dune; emma; ulysses]) 2 fresh = (Val starts, fresh) /\
    concat ((fun i => take (Z.to_nat 2) (drop i [dune; emma; ulysses])) <$> starts)
      = [dune; emma; ulysses] /\
    length starts = ((length [dune; emma; ulysses] + Z.to_nat 2 - 1) / Z.to_nat 2)%nat /\
    Forall (fun i => (0 < length (take (Z.to_nat 2) (drop i [dune; emma; ulysses]))
                      <= Z.to_nat 2)%nat) starts /\
    (forall k i, starts !! k = Some i -> (S k < length starts)%nat ->
       length (take (Z.to_nat 2) (drop i [dune; emma; ulysses])) = Z.to_nat 2) /\
    (forall k i, starts !! k = Some i -> i = (k * Z.to_nat 2)%nat).
Proof. apply (batches_partition_input [dune; emma; ulysses] 2 fresh). lia. Defined.

(** ** The statistics of a run *)

Section Statistics.

Variable E : Env.

Lemma process_book_calls b i w :
  (embedding_calls (stats w) + 1 <= embedding_calls (stats (process_book E b i w).2)
   <= embedding_calls (stats w) + 2)%nat.
Proof.
  rewrite process_book_run.
  destruct (get_embedding_run E (tag_text_of b) w)
    as (k1 & r1 & w1 & -> & _ & _ & Hs1 & _).
  assert (embedding_calls (stats w1) = embedding_calls (stats w) + 1)%nat as H1
    by (by rewrite Hs1).
  destruct r1 as [tv|]; [|cbn; lia].
  destruct (get_embedding_run E (description_of b) w1)
    as (k2 & r2 & w2 & -> & _ & _ & Hs2 & _).
  assert (embedding_calls (stats w2) = embedding_calls (stats w1) + 1)%nat as H2
    by (by rewrite Hs2).
  destruct r2; cbn; lia.
Qed.

Lemma process_each_calls books : forall idx tps dps n w,
  (embedding_calls (stats w) + length books
   <= embedding_calls (stats (process_each E books idx tps dps n w).2)
   <= embedding_calls (stats w) + 2 * length books)%nat.
Proof.
  induction books as [|b books IH]; intros idx tps dps n w.
  - cbn. lia.
  - rewrite process_each_cons. pose proof (process_book_calls b idx w) as Hb.
    destruct (process_book E b idx w) as [[[[t|] [d|]]|e] w1] eqn:Hbook; cbn [snd] in Hb.
    1: specialize (IH (S idx) (tps ++ [t]) (dps ++ [d]) (n + 1)%nat w1).
    2-4: specialize (IH (S idx) tps dps n (with_stats count_failed_upload w1)).
    1-4: cbn [length]; cbn in IH; lia.
    destruct (process_book_result E b idx w) as (? & ? & Hr & _). congruence.
Qed.

(** One turn of the batch loop, on the counters. *)
Lemma import_batch_statistics books bs i w :
  let size := length (take bs (drop i books)) in
  let s := stats w in
  let s' := stats (import_batch E books bs i w).2 in
  total_books s' = total_books s /\ start_time s' = start_time s /\
  (processed_books s <= processed_books s' <= processed_books s + size)%nat /\
  (successful_uploads s <= successful_uploads s')%nat /\
  (failed_uploads s <= failed_uploads s')%nat /\
  (successful_uploads s' + processed_books s
   <= successful_uploads s + processed_books s')%nat /\
  (successful_uploads s' + failed_uploads s'
   <= successful_uploads s + failed_uploads s + size)%nat /\
  (embedding_calls s + size <= embedding_calls s' <= embedding_calls s + 2 * size)%nat.
Proof.
  intros size s s'. subst s'.
  rewrite import_batch_run. fold size.
  pose proof (process_each_calls (take bs (drop i books)) i [] [] 0%nat w) as Hcalls.
  fold (process_batch E (take bs (drop i books)) i w) in Hcalls. fold size in Hcalls.
  destruct (process_batch_run E (take bs (drop i books)) i w)
    as (tps & dps & n & w1 & Hrun & _ & _ & _ & _ & Hn & Hf & Hq & _).
  rewrite Hrun in Hcalls |- *. cbn [snd] in Hcalls. fold size in Hn, Hf.
  destruct Hq as [_ Ht Hp Hsu Hst _].
  assert (Hsame : forall w2, stats w2 = stats w1 ->
    total_books (stats w2) = total_books s /\ start_time (stats w2) = start_time s /\
    (processed_books s <= processed_books (stats w2) <= processed_books s + size)%nat /\
    (successful_uploads s <= successful_uploads (stats w2))%nat /\
    (failed_uploads s <= failed_uploads (stats w2))%nat /\
    (successful_uploads (stats w2) + processed_books s
     <= successful_uploads s + processed_books (stats w2))%nat /\
    (successful_uploads (stats w2) + failed_uploads (stats w2)
     <= successful_uploads s + failed_uploads s + size)%nat /\
    (embedding_calls s + size <= embedding_calls (stats w2)
     <= embedding_calls s + 2 * size)%nat).
  { intros w2 ->. subst s. split_and!; try done; lia. }
  destruct (bool_decide (tps = []) || bool_decide (dps = [])); [by apply Hsame|].
  destruct (upsert_to_qdrant E "tags_vecs" tps w1) as [r2 w2] eqn:Htags.
  destruct (upsert_to_qdrant_any E _ _ _ _ _ Htags) as ((ok2 & ->) & Hs2 & _).
  destruct ok2; [|by apply Hsame].
  destruct (upsert_to_qdrant E "desc_vecs" dps w2) as [r3 w3] eqn:Hdesc.
  destruct (upsert_to_qdrant_any E _ _ _ _ _ Hdesc) as ((ok3 & ->) & Hs3 & _).
  destruct ok3; [|apply Hsame; cbn; congruence].
  cbn [snd]. unfold completed. cbn.
  destruct (start_time (stats w3)) eqn:Hst3; cbn; rewrite Hs3, Hs2; subst s;
    split_and!; try done; lia.
Qed.

Lemma import_batches_statistics books bs starts : forall w,
  let total := sum_list_with (fun i => length (take bs (drop i books))) starts in
  let s := stats w in
  let s' := stats (import_batches E books bs starts w).2 in
  total_books s' = total_books s /\ start_time s' = start_time s /\
  (processed_books s <= processed_books s' <= processed_books s + total)%nat /\
  (successful_uploads s <= successful_uploads s')%nat /\
  (failed_uploads s <= failed_uploads s')%nat /\
  (successful_uploads s' + processed_books s
   <= successful_uploads s + processed_books s')%nat /\
  (successful_uploads s' + failed_uploads s'
   <= successful_uploads s + failed_uploads s + total)%nat /\
  (embedding_calls s + total <= embedding_calls s' <= embedding_calls s + 2 * total)%nat.
Proof.
  induction starts as [|i starts IH]; intros w; cbn zeta.
  - cbn. split_and!; try done; lia.
  - cbn [import_batches sum_list_with]. unfold mbind, M_bind, bind.
    pose proof (import_batch_statistics books bs i w) as H1. cbn zeta in H1.
    destruct (import_batch_accounting E books bs i w) as (w1 & Hrun & _).
    rewrite Hrun in H1 |- *. cbn [snd] in H1.
    specialize (IH w1). cbn zeta in IH.
    destruct H1 as (? & ? & ? & ? & ? & ? & ? & ?).
    destruct IH as (? & ? & ? & ? & ? & ? & ? & ?).
    split_and!; try congruence; lia.
Qed.

End Statistics.

(** X10.  Let the file hold well-formed records: JSON objects whose fields,
    where present, are strings, with a list of strings for the tags (a
    [list book], which is what [Books] carries).  After a run of
    import_books by a new importer that returns [True], the counters
    satisfy: total_books is the number of records of the file;
    successful_uploads <= processed_books <= total_books; the records
    counted as uploaded and those counted as failed are together no more
    than the total; at most two embedding calls were counted per record,
    and with a positive batch size at least one per record. *)
Theorem import_books_statistics (E : Env) (json_file : string) (books : list book)
    (batch_size : Z) (clear_existing : bool) (w0 w1 : world) :
  files E json_file = Books books ->
  import_books E json_file batch_size clear_existing (new_importer w0) = (Val true, w1) ->
  let s := stats w1 in
  total_books s = length books /\
  is_Some (start_time s) /\
  (successful_uploads s <= processed_books s <= total_books s)%nat /\
  (successful_uploads s + failed_uploads s <= total_books s)%nat /\
  (embedding_calls s <= 2 * total_books s)%nat /\
  (0 < batch_size -> (total_books s <= embedding_calls s)%nat).
Proof.
  intros Hfile Hrun s. subst s.
  destruct (import_books_phases E _ _ _ _ _ Hrun)
    as (wa & wb & books' & starts & wd & we & Hcheck & Hsetup & Hfile' & Hstarts
        & Hloop & Hreport & Hverify).
  rewrite Hfile in Hfile'. injection Hfile' as <-.
  set (wc := with_stats (start_run (length books) (wall wb)) wb) in *.
  assert (Hwb : stats wb = initial_stats).
  { rewrite (setup_collections_same_stats E _ _ _ _ Hsetup).
    by rewrite (idle_stats _ _ _ (check_services_idle E _ _ _ Hcheck)). }
  assert (Hstats : stats w1 = stats wd).
  { rewrite (idle_stats _ _ _ (verify_collections_idle E _ _ _ Hverify)).
    by rewrite (idle_stats _ _ _ (print_final_report_idle _ _ _ Hreport)). }
  pose proof (import_batches_statistics E books (Z.to_nat batch_size) starts wc) as Hloop'.
  cbn zeta in Hloop'. rewrite Hloop in Hloop'. cbn [snd] in Hloop'.
  rewrite Hstats. cbn in Hloop'. rewrite Hwb in Hloop'. cbn in Hloop'.
  destruct Hloop' as (Htot & Hst & Hp & Hsu & Hfa & Hsp & Hsf & Hcalls).
  assert (Hsum : (sum_list_with (fun i => length (take (Z.to_nat batch_size) (drop i books)))
                    starts <= length books)%nat /\
                 (0 < batch_size ->
                  sum_list_with (fun i => length (take (Z.to_nat batch_size) (drop i books)))
                    starts = length books)).
  { destruct (batch_starts_run _ _ _ _ _ Hstarts)
      as (_ & [(_ & ?)|[(? & [= ->])|(Hpos & [= ->])]]); [done| |].
    - cbn. split; lia.
    - rewrite chunk_starts_sum by lia. split; [lia|done]. }
  destruct Hsum as (Hle & Heq).
  rewrite Htot, Hst. split_and!; try done; try lia.
Qed.

Lemma import_books_statistics_witness :
  let s := stats (import_books tags_refused "books.json" 1 false (new_importer fresh)).2 in
  total_books s = length [dune; emma] /\
  is_Some (start_time s) /\
  (successful_uploads s <= processed_books s <= total_books s)%nat /\
  (successful_uploads s + failed_uploads s <= total_books s)%nat /\
  (embedding_calls s <= 2 * total_books s)%nat /\
  (0 < 1 -> (total_books s <= embedding_calls s)%nat).
Proof.
  apply (import_books_statistics tags_refused "books.json" [dune; emma] 1 false fresh).
  - reflexivity.
  - vm_compute. reflexivity.
Defined.

(** ** Description points and their tag points *)

#[local] Instance keeps_paired_preorder : PreOrder keeps_paired.
Proof. split; [by intros w H|]. intros w1 w2 w3 H1 H2 H. by apply H2, H1. Qed.

Lemma same_store_paired w w' :
  (forall c, collection c w' = collection c w) -> keeps_paired w w'.
Proof. intros Hc. unfold keeps_paired, paired, ids_in. by rewrite !Hc. Qed.

Section Pairing.

Variable E : Env.

Lemma import_batch_paired books bs i w :
  keeps_paired w (import_batch E books bs i w).2.
Proof.
  intros Hw. rewrite import_batch_run.
  destruct (process_batch_run E (take bs (drop i books)) i w)
    as (tps & dps & n & w1 & -> & _ & _ & _ & Hids & _ & _ & Hq & _).
  assert (H1 : paired w1).
  { unfold paired, ids_in, collection in *. by rewrite (quiet_qdrant _ _ Hq). }
  assert (Hsame : ids_of dps = ids_of tps) by (unfold ids_of; by rewrite Hids).
  destruct (bool_decide (tps = []) || bool_decide (dps = [])); [exact H1|].
  destruct (upsert_to_qdrant E "tags_vecs" tps w1) as [r2 w2] eqn:Htags.
  destruct (upsert_to_qdrant_any E _ _ _ _ _ Htags) as ((ok2 & ->) & _ & _ & Hother2 & Hc2).
  assert (Hd2 : ids_in "desc_vecs" w2 = ids_in "desc_vecs" w1).
  { unfold ids_in. by rewrite Hother2. }
  destruct ok2.
  - destruct (upsert_to_qdrant_true E _ _ _ _ Htags) as (_ & Ht2).
    destruct (upsert_to_qdrant E "desc_vecs" dps w2) as [r3 w3] eqn:Hdesc.
    destruct (upsert_to_qdrant_any E _ _ _ _ _ Hdesc) as ((ok3 & ->) & _ & _ & Hother3 & Hc3).
    assert (Ht3 : ids_in "tags_vecs" w3 = ids_in "tags_vecs" w1 ∪ ids_of tps).
    { unfold ids_in in *. by rewrite Hother3. }
    assert (Hd3 : ids_in "desc_vecs" w3 ⊆ ids_in "desc_vecs" w1 ∪ ids_of dps).
    { rewrite <- Hd2. unfold ids_in.
      destruct Hc3 as [->| ->]; [set_solver|]. by rewrite dom_store_points. }
    assert (H3 : paired w3).
    { unfold paired in *. rewrite Ht3. set_solver. }
    destruct ok3; cbn [snd]; [|exact H3].
    revert H3. apply same_store_paired. intros c. unfold completed. cbn.
    by destruct (start_time (stats w3)).
  - cbn [snd]. unfold paired in *. change (ids_in "desc_vecs" w2 ⊆ ids_in "tags_vecs" w2).
    rewrite Hd2. unfold ids_in at 2.
    destruct Hc2 as [->| ->]; [exact H1|]. rewrite dom_store_points.
    fold (ids_in "tags_vecs" w1). set_solver.
Qed.

Lemma import_batches_paired books bs starts : forall w,
  keeps_paired w (import_batches E books bs starts w).2.
Proof.
  induction starts as [|i starts IH]; intros w; [done|].
  cbn [import_batches]. unfold mbind, M_bind, bind.
  pose proof (import_batch_paired books bs i w) as H1.
  destruct (import_batch_accounting E books bs i w) as (w1 & Hrun & _).
  rewrite Hrun in H1 |- *. cbn [snd] in H1.
  etrans; [exact H1|apply IH].
Qed.

End Pairing.

(** X11.  A run of import_books without the clear-existing flag, whatever the
    services answer and whatever it returns, leaves no description point
    without its tag point, unless there was one before. *)
Theorem import_books_keeps_descriptions_paired (E : Env) (json_file : string)
    (batch_size : Z) (w : world) :
  paired w ->
  paired (import_books E json_file batch_size false w).2.
Proof.
  intros Hw.
  assert (Hpres : preserves keeps_paired (import_books E json_file batch_size false)).
  { assert (Hidle : forall A (m : M A), preserves (idle harmless) m ->
                      preserves keeps_paired m).
    { intros A m. apply preserves_weaken. intros w1 w2 [_ Hc _]. by apply same_store_paired. }
    unfold import_books, load_books.
    apply preserves_bind; [apply _|apply Hidle, check_services_idle|intros services].
    apply preserves_if; [apply preserves_ret; apply _|].
    apply preserves_bind; [apply _|apply Hidle, setup_collections_idle|intros collections].
    apply preserves_if; [apply preserves_ret; apply _|].
    destruct (files E json_file) as [| |books]; try (apply preserves_ret; apply _).
    apply preserves_bind; [apply _| |intros t].
    { intros w1 r w' [= <- <-]. reflexivity. }
    apply preserves_bind; [apply _| |intros _].
    { intros w1 r w' [= <- <-]. by apply same_store_paired. }
    apply preserves_bind; [apply _| |intros starts].
    { intros w1 r w' Hrun. destruct (batch_starts_run _ _ _ _ _ Hrun) as (-> & _). reflexivity. }
    apply preserves_bind; [apply _| |intros _].
    { intros w1 r w' Hrun.
      pose proof (import_batches_paired E books (Z.to_nat batch_size) starts w1) as H.
      by rewrite Hrun in H. }
    apply preserves_bind; [apply _|apply Hidle, print_final_report_idle|intros _].
    apply preserves_bind; [apply _|apply Hidle, verify_collections_idle|intros _].
    apply preserves_ret; apply _. }
  destruct (import_books E json_file batch_size false w) as [r w'] eqn:Hrun.
  exact (Hpres _ _ _ Hrun Hw).
Qed.

Lemma import_books_keeps_descriptions_paired_witness :
  let once := (import_books all_served "books.json" 10 false fresh).2 in
  paired (import_books desc_refused "books.json" 10 false once).2.
Proof.
  intros once.
  apply (import_books_keeps_descriptions_paired desc_refused "books.json" 10 once).
  apply (bool_decide_unpack _). vm_compute. reflexivity.
Defined.

(** ** The points of a batch *)

Section BatchPoints.

Variable E : Env.

Lemma process_book_points b i w :
  match (process_book E b i w).1 with
  | Val (Some t, Some d) =>
      point_id t = book_id_to_uuid (key_of b i) /\ keyed t /\ twins t d
  | Val (None, None) => True
  | _ => False
  end.
Proof.
  rewrite process_book_run.
  destruct (get_embedding_run E (tag_text_of b) w) as (k1 & r1 & w1 & -> & _).
  destruct r1 as [tv|]; [|done].
  destruct (get_embedding_run E (description_of b) w1) as (k2 & r2 & w2 & -> & _).
  destruct r2 as [dv|]; [|done].
  cbn [fst]. split_and!; [done| |done].
  exists (key_of b i). done.
Qed.

Lemma process_each_points books : forall idx w,
  exists tps' dps' n' w',
    (forall tps dps n,
       process_each E books idx tps dps n w
       = (Val (tps ++ tps', dps ++ dps', n + n')%nat, w')) /\
    Forall keyed tps' /\ Forall2 twins tps' dps' /\
    (point_id <$> tps') `sublist_of` derived_ids books idx.
Proof.
  induction books as [|b books IH]; intros idx w.
  - exists [], [], 0%nat, w. cbn.
    split_and!; [|constructor|constructor|constructor].
    intros tps dps n. by rewrite !app_nil_r, Nat.add_0_r.
  - pose proof (process_book_points b idx w) as Hb.
    rewrite derived_ids_cons.
    destruct (process_book E b idx w) as [[[[t|] [d|]]|e] w1] eqn:Hbook; cbn [fst] in Hb;
      try done.
    + destruct Hb as (Hid & Hk & Htw).
      destruct (IH (S idx) w1) as (tps' & dps' & n' & w' & Hrun & ? & ? & ?).
      exists (t :: tps'), (d :: dps'), (S n'), w'. split_and!.
      * intros tps dps n. rewrite process_each_cons, Hbook, Hrun.
        rewrite <- !app_assoc. cbn [app]. do 3 f_equal. lia.
      * by constructor.
      * by constructor.
      * cbn [fmap list_fmap]. rewrite Hid. by apply sublist_skip.
    + destruct (IH (S idx) (with_stats count_failed_upload w1))
        as (tps' & dps' & n' & w' & Hrun & ? & ? & ?).
      exists tps', dps', n', w'. split_and!; try done.
      * intros tps dps n. rewrite process_each_cons, Hbook. apply Hrun.
      * by apply sublist_cons.
Qed.

End BatchPoints.

(** X12.  Take a batch of well-formed records: JSON objects whose fields,
    where present, are strings, with a list of strings for the tags (a
    [list book]).  On such a batch process_batch does not raise, and it
    returns the points in the order of the records: the identifiers of the
    tag points are a subsequence of the identifiers derived from the
    records by position.  Every tag point is stored under
    the identifier derived from the book_id in its own payload, and the
    k-th description point belongs to the k-th tag point: same identifier,
    same book_id, types "book" and "book_desc".  The count returned is the
    number of points. *)
Theorem process_batch_points (E : Env) (books : list book) (start : nat) (w : world) :
  exists tps dps n w',
    process_batch E books start w = (Val (tps, dps, n), w') /\
    n = length tps /\
    Forall keyed tps /\
    Forall2 twins tps dps /\
    (point_id <$> tps) `sublist_of` derived_ids books start.
Proof.
  destruct (process_each_points E books start w) as (tps & dps & n & w' & Hrun & Hk & Ht & Hs).
  destruct (process_batch_run E books start w)
    as (tps' & dps' & n' & w'' & Hrun' & _ & Hlen & _).
  exists tps, dps, n, w'. unfold process_batch in *.
  specialize (Hrun [] [] 0%nat). cbn in Hrun. rewrite Hrun in Hrun'.
  injection Hrun' as <- <- <- <-. by split_and!.
Qed.

(** ** A record whose tag text cannot be embedded *)

(** X13.  When the three requests for the tag text of a record all fail,
    process_book sends exactly those three, pauses one second after the
    first and after the second, never asks for the embedding of the
    description, counts one embedding call, and returns no point. *)
Theorem process_book_gives_up_after_tags (E : Env) (b : book) (i : nat) (w : world) :
  (forall j, (j < MAX_RETRIES)%nat -> fate_at E (tick w + j) <> Served) ->
  exists w',
    process_book E b i w = (Val (None, None), w') /\
    trace w' = trace w ++
      [Sent (embed_request (tag_text_of b)); Slept 1000;
       Sent (embed_request (tag_text_of b)); Slept 1000;
       Sent (embed_request (tag_text_of b))] /\
    embedding_calls (stats w') = (embedding_calls (stats w) + 1)%nat /\
    failed_uploads (stats w') = failed_uploads (stats w) /\
    wall w' = (wall w + 2000)%N /\
    qdrant w' = qdrant w.
Proof.
  intros Hfail. rewrite process_book_run.
  destruct (get_embedding_run E (tag_text_of b) w)
    as (k & r & w1 & -> & Hk & _ & Hs & Hq & Hwall & _ & Htrace & Hr).
  destruct Hr as [(Hserved & _)|(_ & Hlast & ->)].
  { by destruct (Hfail k Hk). }
  injection Hlast as ->. exists w1. rewrite Hs.
  split_and!; done.
Qed.

Lemma process_book_gives_up_after_tags_witness :
  exists w',
    process_book one_bad_record emma 1 (World initial_stats ∅ 2 0 []) = (Val (None, None), w') /\
    trace w' = [] ++
      [Sent (embed_request (tag_text_of emma)); Slept 1000;
       Sent (embed_request (tag_text_of emma)); Slept 1000;
       Sent (embed_request (tag_text_of emma))] /\
    embedding_calls (stats w') = (0 + 1)%nat /\
    failed_uploads (stats w') = 0%nat /\
    wall w' = (0 + 2000)%N /\
    qdrant w' = ∅.
Proof.
  apply (process_book_gives_up_after_tags one_bad_record emma 1 (World initial_stats ∅ 2 0 [])).
  intros [|[|[|j]]] Hj; cbn; try discriminate. unfold MAX_RETRIES in Hj. lia.
Defined.

(** ** A run that clears first *)

Section ClearFirst.

Variable E : Env.

Lemma check_collection_exists_world c w :
  exists b, check_collection_exists E c w = (Val b, sent (GetCollection c) w).
Proof.
  unfold check_collection_exists, http, sent. unfold_M. cbn [answer].
  destruct (fate_at E (tick w)); destruct (qdrant w !! c); cbn; eauto.
Qed.

Lemma create_collection_true c w w' :
  create_collection E c w = (Val true, w') ->
  stats w' = stats w /\ collection c w = ∅ /\ collection c w' = ∅ /\
  (forall c', c' <> c -> collection c' w' = collection c' w).
Proof.
  unfold create_collection, http, collection. unfold_M. cbn [answer].
  destruct (fate_at E (tick w)) as [|code| |]; cbn.
  - destruct (qdrant w !! c) as [m|] eqn:Hc; cbn; intros [= <-]; cbn.
    rewrite lookup_insert_eq. split_and!; try done.
    intros c' Hne. by rewrite lookup_insert_ne.
  - rewrite error_is_not_ok. discriminate.
  - discriminate.
  - destruct (qdrant w !! c); cbn; discriminate.
Qed.

Lemma clear_collection_true c w w' :
  clear_collection E c w = (Val true, w') ->
  stats w' = stats w /\
  collection c w' = delete_points (first_page 10000 (collection c w)) (collection c w) /\
  (forall c', c' <> c -> collection c' w' = collection c' w).
Proof.
  intros Hrun.
  destruct (clear_collection_success E c w _ _ Hrun) as (_ & Htrue).
  destruct (Htrue eq_refl) as (Hscroll & m & Hc & Hpage).
  revert Hrun. unfold clear_collection, http, collection. unfold_M.
  rewrite Hscroll. cbn [answer]. rewrite Hc. cbn. fold (first_page 10000 m).
  destruct (first_page 10000 m) as [|i ids] eqn:Hfirst.
  - intros [= <-]. cbn. rewrite Hc. cbn. split_and!; done.
  - cbn. destruct (fate_at E (S (tick w))) as [|code| |]; cbn [answer]; cbn;
      rewrite ?Hc; cbn; rewrite ?error_is_not_ok; intros [= <-]; cbn.
    rewrite lookup_insert_eq. split_and!; try done.
    intros c' Hne. by rewrite lookup_insert_ne.
Qed.

Lemma setup_each_true cs : forall w w',
  NoDup cs ->
  setup_each E true cs w = (Val true, w') ->
  stats w' = stats w /\
  (forall c, c ∈ cs ->
     collection c w' = delete_points (first_page 10000 (collection c w)) (collection c w)) /\
  (forall c, c ∉ cs -> collection c w' = collection c w).
Proof.
  induction cs as [|c cs IH]; intros w w' Hnd.
  - intros [= <-]. split_and!; try done. intros c Hc. by apply elem_of_nil in Hc.
  - apply NoDup_cons in Hnd as [Hc Hnd].
    cbn [setup_each]. unfold mbind, M_bind, bind.
    destruct (check_collection_exists_world c w) as (b & ->). lazy beta iota.
    set (w1 := sent (GetCollection c) w).
    assert (Hstep : forall w2,
      (if b then clear_collection E c else create_collection E c) w1 = (Val true, w2) ->
      stats w2 = stats w /\
      collection c w2 = delete_points (first_page 10000 (collection c w)) (collection c w) /\
      (forall c', c' <> c -> collection c' w2 = collection c' w)).
    { intros w2 H2. destruct b.
      - exact (clear_collection_true c w1 w2 H2).
      - destruct (create_collection_true c w1 w2 H2) as (Hs & Hempty & Hnew & Hother).
        change (collection c w1) with (collection c w) in Hempty.
        split_and!; [done| |done]. by rewrite Hnew, Hempty. }
    destruct ((if b then clear_collection E c else create_collection E c) w1)
      as [[[|]|e] w2] eqn:Hdone; cbn [negb]; try discriminate.
    destruct (Hstep w2 eq_refl) as (Hs2 & Hc2 & Ho2).
    intros Hrest. destruct (IH w2 w' Hnd Hrest) as (Hs & Hin & Hout).
    split_and!.
    + congruence.
    + intros c' [->|Hc']%elem_of_cons.
      * by rewrite Hout, Hc2.
      * rewrite (Hin c' Hc'), Ho2; [done|]. intros ->. done.
    + intros c' Hc'. apply not_elem_of_cons in Hc' as [Hne Hc'].
      by rewrite (Hout c' Hc'), Ho2.
Qed.

End ClearFirst.

Lemma clear_small (m : gmap string point) :
  (size m <= N.to_nat 10000)%nat -> delete_points (first_page 10000 m) m = ∅.
Proof.
  intros Hsize. apply map_size_empty_iff. rewrite size_after_first_page. lia.
Qed.

(** X14.  A run of import_books with the clear-existing flag that returns [True]
    and reports every record as uploaded, started on collections of at most
    10000 points each, leaves in both collections exactly the identifiers
    derived from the records of the file. *)
Theorem clean_import_stores_exactly_the_catalog (E : Env) (json_file : string)
    (books : list book) (batch_size : Z) (w0 w1 : world) :
  files E json_file = Books books ->
  (point_count "tags_vecs" w0 <= N.to_nat 10000)%nat ->
  (point_count "desc_vecs" w0 <= N.to_nat 10000)%nat ->
  import_books E json_file batch_size true (new_importer w0) = (Val true, w1) ->
  successful_uploads (stats w1) = length books ->
  ids_in "tags_vecs" w1 = catalog_ids books /\
  ids_in "desc_vecs" w1 = catalog_ids books.
Proof.
  intros Hfile Htags Hdesc Hrun Hall.
  pose proof (full_run_stores_catalog E _ _ _ _ _ _ Hfile Hrun Hall) as Hsup.
  destruct (import_books_phases E _ _ _ _ _ Hrun)
    as (wa & wb & books' & starts & wd & we & Hcheck & Hsetup & Hfile' & Hstarts
        & Hloop & Hreport & Hverify).
  rewrite Hfile in Hfile'. injection Hfile' as <-.
  set (wc := with_stats (start_run (length books) (wall wb)) wb) in *.
  pose proof (idle_store _ _ _ (check_services_idle E _ _ _ Hcheck)) as Ha.
  destruct (setup_each_true E ["tags_vecs"; "desc_vecs"]%string wa wb) as (_ & Hb & _);
    [repeat constructor; set_solver|exact Hsetup|].
  assert (Hempty : forall c, c ∈ ["tags_vecs"; "desc_vecs"]%string ->
            (point_count c w0 <= N.to_nat 10000)%nat -> ids_in c wc = ∅).
  { intros c Hc Hsize. unfold ids_in. change (collection c wc) with (collection c wb).
    rewrite (Hb c Hc), Ha. change (collection c (new_importer w0)) with (collection c w0).
    rewrite clear_small by exact Hsize. apply dom_empty_L. }
  destruct (import_batches_accounting E books (Z.to_nat batch_size) starts wc)
    as (wd' & Hloop' & [_ Hwithin _] & _).
  rewrite Hloop in Hloop'. injection Hloop' as <-.
  assert (Hsame : forall c, ids_in c w1 = ids_in c wd).
  { intros c. unfold ids_in.
    rewrite (idle_store _ _ _ (verify_collections_idle E _ _ _ Hverify)).
    by rewrite (idle_store _ _ _ (print_final_report_idle _ _ _ Hreport)). }
  pose proof (Hwithin "tags_vecs"%string) as Ht.
  pose proof (Hwithin "desc_vecs"%string) as Hd.
  rewrite Hempty in Ht by (set_solver || done).
  rewrite Hempty in Hd by (set_solver || done).
  rewrite <- Hsame in Ht, Hd. set_solver.
Qed.

Lemma clean_import_stores_exactly_the_catalog_witness :
  let w1 := (import_books all_served "books.json" 10 true (new_importer stale)).2 in
  ids_in "tags_vecs" w1 = catalog_ids [dune; emma] /\
  ids_in "desc_vecs" w1 = catalog_ids [dune; emma].
Proof.
  apply (clean_import_stores_exactly_the_catalog all_served "books.json" [dune; emma] 10 stale).
  - reflexivity.
  - apply Nat.leb_le. vm_compute. reflexivity.
  - apply Nat.leb_le. vm_compute. reflexivity.
  - vm_compute. reflexivity.
  - vm_compute. reflexivity.
Defined.

(** * The second import script *)






Section Agreement.

Variable E : Env.
Variable gave_up : exn.








End Agreement.



(** X17.  On a list that is not empty the two upsert_to_qdrant functions do the
    same: the same request, the same result, the same store.  On the empty
    list the method of BookImporter returns [True] without a request; the
    function of the second script sends the request with no points, and its
    result is that of the request. *)
Theorem upsert_to_qdrant_agrees (E : Env) (c : string) (pts : list point) (w : world) :
  match pts with
  | [] =>
      upsert_to_qdrant E c pts w = (Val true, w) /\
      let run := ImportCleaned1000.upsert_to_qdrant E c pts w in
      trace run.2 = trace w ++ [Sent (PutPoints c [])] /\
      collection c run.2 = collection c w /\
      (run.1 = Val true <-> fate_at E (tick w) = Served /\ is_Some (qdrant w !! c))
  | _ :: _ => ImportCleaned1000.upsert_to_qdrant E c pts w = upsert_to_qdrant E c pts w
  end.
Proof.
  destruct pts as [|p pts].
  - split; [done|]. unfold ImportCleaned1000.upsert_to_qdrant, http, collection.
    unfold_M. cbn [answer].
    destruct (fate_at E (tick w)) as [|code| |]; cbn;
      [destruct (qdrant w !! c) as [m|] eqn:Hc
      |destruct (code =? 200)
      |
      |destruct (qdrant w !! c) as [m|] eqn:Hc];
      cbn; rewrite ?lookup_insert_eq, ?Hc, ?error_is_not_ok;
      (split_and!; try done);
      (split; [try done; intros _; by eauto
              |try done; first [by intros [? _]|by intros [_ [? ?]]]]).
  - unfold ImportCleaned1000.upsert_to_qdrant, upsert_to_qdrant, http.
    unfold_M. cbn [answer].
    destruct (fate_at E (tick w)) as [|code| |]; cbn; try done.
    + destruct (qdrant w !! c); cbn; done.
    + by destruct (code =? 200).
    + destruct (qdrant w !! c); cbn; done.
Qed.
